(** * The cart store of the storefront client

    A shallow embedding of the React cart context (the provider that
    holds [cartItems], persists it in [localStorage] and hands
    [addToCart], [removeFromCart], [updateQuantity], [clearCart],
    [getCartTotal] and [getCartItemsCount] to the views), of the
    checkout form's [handleSubmit], and of the product page's
    [handleAddToCart].

    Conventions of the embedding.
    - A JavaScript number that the code treats as a count (a quantity, a
      numeric identifier) is a [Z], which is what a double holds exactly
      below 2^53. A price is an IEEE 754 double ([float], the binary64
      numbers of the kernel), and so is every number computed from one:
      [getCartTotal] multiplies and adds with rounding to nearest, as
      JavaScript does.
    - Product identifiers are numbers or strings, compared with [===].
    - A cart line is the flat object [{...product, quantity}]: the
      product's own properties plus [quantity].
    - An array read from the storage holds cart lines and [null]s; the
      callbacks of the operations throw when they read a property of
      [null].
    - [localStorage] is a finite map from keys to strings whose calls may
      throw; [JSON.parse] and [JSON.stringify] are parameters of the
      provider section.
    - [main.jsx] renders the application inside [React.StrictMode]: a
      development build runs the effects of a mounted component twice,
      a production build once. Mounting takes the build as a
      parameter. *)

From Stdlib Require Import QArith Floats.
From stdpp Require Import gmap strings list pretty.

Set Warnings "-register-all,-inexact-float".

(** ** Products and cart lines *)

(** [item.id]: a number or a string. [IdNum 1] and [IdStr "1"] are
    different identifiers, as [1 === "1"] is false. *)
Inductive ident :=
| IdNum (n : Z)
| IdStr (s : string).

#[global] Instance ident_eq_dec : EqDecision ident.
Proof. solve_decision. Defined.

(** The product descriptor handed to [addToCart]: [other] holds the
    remaining own properties (description, category, stock, ...), each
    with the text of its value. *)
Record Product := mkProduct {
  id : ident;
  name : string;
  price : float;
  imageUrl : option string;
  other : gmap string string
}.

(** A line of the cart, [{ ...product, quantity }]. The coercion lets
    [id item], [price item] read like [item.id], [item.price]. *)
Record CartLine := mkLine {
  fields :> Product;
  quantity : Z
}.

(** ** The operations of the provider, as functions of [prevItems] *)

(** [addToCart]: the updater passed to [setCartItems]. *)
Definition addToCart (product : Product) (prevItems : list CartLine) : list CartLine :=
  let existingItem := list_find (λ item : CartLine, id item = id product) prevItems in
  match existingItem with
  | Some _ =>
      map (λ item : CartLine,
             if decide (id item = id product)
             then {| fields := item; quantity := quantity item + 1 |}
             else item) prevItems
  | None => prevItems ++ [ {| fields := product; quantity := 1 |} ]
  end.

(** [removeFromCart]: keeps the lines with [item.id !== productId]. *)
Definition removeFromCart (productId : ident) (prevItems : list CartLine) : list CartLine :=
  filter (λ item : CartLine, id item ≠ productId) prevItems.

(** [updateQuantity]: delegates to [removeFromCart] when
    [quantity <= 0], else rewrites the matching lines. *)
Definition updateQuantity (productId : ident) (quantity : Z) (prevItems : list CartLine)
  : list CartLine :=
  if decide (quantity ≤ 0)%Z then removeFromCart productId prevItems
  else
    map (λ item : CartLine,
           if decide (id item = productId)
           then {| fields := item; quantity := quantity |}
           else item) prevItems.

(** [clearCart]: [setCartItems([])]. *)
Definition clearCart : list CartLine := [].

(** The double that holds the count [n]: [n] itself up to 2^53 in
    absolute value, the nearest double beyond. *)
Definition as_double (n : Z) : float :=
  SF2Prim (binary_normalize prec emax n 0 false).

(** [getCartTotal]: [cartItems.reduce((total, item) => total + item.price * item.quantity, 0)],
    every product and every sum rounded to the nearest double. *)
Definition getCartTotal (cartItems : list CartLine) : float :=
  fold_left (λ (total : float) (item : CartLine),
               (total + price item * as_double (quantity item))%float)
            cartItems 0%float.

(** [getCartItemsCount]: [cartItems.reduce((count, item) => count + item.quantity, 0)]. *)
Definition getCartItemsCount (cartItems : list CartLine) : Z :=
  fold_left (λ (count : Z) (item : CartLine), (count + quantity item)%Z) cartItems 0%Z.

(** ** Vocabulary of the statements *)

(** The cart has a line for [productId]. *)
Definition has_line (productId : ident) (cart : list CartLine) : Prop :=
  Exists (λ item : CartLine, id item = productId) cart.

(** The lines of the cart for [productId], in cart order. *)
Definition lines_for (productId : ident) (cart : list CartLine) : list CartLine :=
  filter (λ item : CartLine, id item = productId) cart.

(** A line with its quantity raised by one, every other property kept. *)
Definition incremented (item : CartLine) : CartLine :=
  {| fields := item; quantity := quantity item + 1 |}.

(** [addToCart] called once per product of [products], in order. *)
Definition addAll (products : list Product) (cart : list CartLine) : list CartLine :=
  fold_left (λ prevItems product, addToCart product prevItems) products cart.

(** The calls a view can make on the store. *)
Inductive call :=
| AddToCart (product : Product)
| RemoveFromCart (productId : ident)
| UpdateQuantity (productId : ident) (quantity : Z)
| ClearCart.

(** The cart a call leaves, given the cart it finds. *)
Definition perform (c : call) (prevItems : list CartLine) : list CartLine :=
  match c with
  | AddToCart product => addToCart product prevItems
  | RemoveFromCart productId => removeFromCart productId prevItems
  | UpdateQuantity productId quantity => updateQuantity productId quantity prevItems
  | ClearCart => clearCart
  end.

Definition perform_all (calls : list call) (cart : list CartLine) : list CartLine :=
  fold_left (λ prevItems c, perform c prevItems) calls cart.

(** The data-model invariant: one line per identifier, quantities at
    least 1. *)
Definition cart_invariant (cart : list CartLine) : Prop :=
  NoDup (map (λ item : CartLine, id item) cart)
  ∧ Forall (λ item : CartLine, (1 ≤ quantity item)%Z) cart.

(** The rational number a finite double stands for (0 for the others). *)
Definition exact_value (x : float) : Q :=
  match Prim2SF x with
  | S754_finite s m e =>
      ((if s then -1 else 1) * inject_Z (Zpos m) * 2 ^ e)%Q
  | _ => 0%Q
  end.

(** The sums the specification names, written by recursion on the
    lines: the sum of the prices times the quantities as a sum of
    rational numbers, without rounding, and the sum of the quantities. *)
Fixpoint sum_price_times_quantity (cart : list CartLine) : Q :=
  match cart with
  | [] => 0%Q
  | item :: rest =>
      (exact_value (price item) * inject_Z (quantity item) + sum_price_times_quantity rest)%Q
  end.

(** The doubles [terms] added to [start] one after the other, each sum
    rounded. *)
Definition added_in_order (start : float) (terms : list float) : float :=
  fold_left PrimFloat.add terms start.

(** [0 <= x] holds of the double [x], read off its sign: zeros of both
    signs, positive numbers and positive infinity. *)
Definition SFnonneg (x : spec_float) : bool :=
  match x with
  | S754_zero _ => true
  | S754_infinity s => negb s
  | S754_finite s _ _ => negb s
  | S754_nan => false
  end.

Fixpoint sum_quantity (cart : list CartLine) : Z :=
  match cart with
  | [] => 0%Z
  | item :: rest => (quantity item + sum_quantity rest)%Z
  end.

(** ** Deciding the vocabulary on concrete carts *)

#[global] Instance has_line_dec (productId : ident) (cart : list CartLine) :
  Decision (has_line productId cart).
Proof. unfold has_line. apply _. Defined.

Ltac by_evaluation :=
  lazymatch goal with
  | |- ?P => apply (bool_decide_unpack P); vm_compute; exact I
  end.

(** ** JavaScript values

    What [JSON.parse] can return and the state variable [cartItems] can
    hold. An array holds cart lines (objects with the properties of a
    line) and [null]s; numbers other than prices are integers; an object
    that is not a cart line maps property names to values. A text whose
    value is none of these (an array of numbers, an object that lacks a
    property of a line inside an array) has no counterpart here. *)
Inductive element :=
| Line (line : CartLine)
| Null.

Inductive jsvalue :=
| JNull
| JBool (b : bool)
| JNum (n : Z)
| JStr (s : string)
| JObj (props : gmap string jsvalue)
| JArr (elements : list element).

(** Truthiness, as [if (v)], [!v] and [v && ...] read a value. *)
Definition truthy (v : jsvalue) : bool :=
  match v with
  | JNull => false
  | JBool b => b
  | JNum n => negb (n =? 0)%Z
  | JStr EmptyString => false
  | JStr (String _ _) => true
  | JObj _ => true
  | JArr _ => true
  end.

(** [v[key]] for a value that is not null; [None] is [undefined]. Arrays,
    strings, numbers and booleans have no property of the names the code
    reads. *)
Definition property (v : jsvalue) (key : string) : option jsvalue :=
  match v with
  | JObj props => props !! key
  | _ => None
  end.

(** The string a template literal [`${v}`] inserts. *)
Definition to_string (v : jsvalue) : string :=
  match v with
  | JNull => "null"
  | JBool true => "true"
  | JBool false => "false"
  | JNum n => pretty n
  | JStr s => s
  | JObj _ => "[object Object]"
  | JArr elements =>
      String.concat ","
        (map (λ item : element,
                match item with
                | Line _ => "[object Object]"
                | Null => ""
                end) elements)
  end.

(** The result of [localStorage.getItem] when it is a truthy string:
    neither [null] nor the empty string. *)
Definition present (stored : option string) : option string :=
  match stored with
  | Some (String c rest) => Some (String c rest)
  | _ => None
  end.

(** [stored || fallback] on the result of [getItem]. *)
Definition or_else (stored : option string) (fallback : string) : string :=
  match present stored with
  | Some text => text
  | None => fallback
  end.

(** ** The operations on any array

    The callbacks of the operations read [item.id], [item.quantity] and
    [item.price]; on [null] that is a TypeError, and the array method
    that called the callback throws with it. [None] is a thrown
    exception. *)

(** The object whose properties [item.id], [item.quantity], ... are
    read. *)
Definition read (item : element) : option CartLine :=
  match item with
  | Line line => Some line
  | Null => None
  end.

(** [array.find(callback)]: the first element the callback accepts, the
    callback called on the elements up to it. *)
Fixpoint array_find (callback : element → option bool) (array : list element)
  : option (option element) :=
  match array with
  | [] => Some None
  | item :: rest =>
      match callback item with
      | None => None
      | Some true => Some (Some item)
      | Some false => array_find callback rest
      end
  end.

(** [array.map(callback)] *)
Fixpoint array_map (callback : element → option element) (array : list element)
  : option (list element) :=
  match array with
  | [] => Some []
  | item :: rest =>
      match callback item with
      | None => None
      | Some item' =>
          match array_map callback rest with
          | None => None
          | Some rest' => Some (item' :: rest')
          end
      end
  end.

(** [array.filter(callback)] *)
Fixpoint array_filter (callback : element → option bool) (array : list element)
  : option (list element) :=
  match array with
  | [] => Some []
  | item :: rest =>
      match callback item with
      | None => None
      | Some keep =>
          match array_filter callback rest with
          | None => None
          | Some rest' => Some (if keep then item :: rest' else rest')
          end
      end
  end.

(** [array.reduce(callback, start)] *)
Fixpoint array_reduce {A : Type} (callback : A → element → option A)
    (array : list element) (start : A) : option A :=
  match array with
  | [] => Some start
  | item :: rest =>
      match callback start item with
      | None => None
      | Some next => array_reduce callback rest next
      end
  end.

(** The updater of [addToCart] on any array. *)
Definition addToCart_raw (product : Product) (prevItems : list element)
  : option (list element) :=
  let existingItem :=
    array_find (λ item : element,
                  read item ≫= λ line : CartLine,
                    Some (bool_decide (id line = id product))) prevItems in
  match existingItem with
  | None => None
  | Some (Some _) =>
      array_map (λ item : element,
                   read item ≫= λ line : CartLine,
                     Some (if decide (id line = id product)
                           then Line {| fields := line; quantity := quantity line + 1 |}
                           else item)) prevItems
  | Some None => Some (prevItems ++ [Line {| fields := product; quantity := 1 |}])
  end.

(** The updater of [removeFromCart] on any array. *)
Definition removeFromCart_raw (productId : ident) (prevItems : list element)
  : option (list element) :=
  array_filter (λ item : element,
                  read item ≫= λ line : CartLine,
                    Some (bool_decide (id line ≠ productId))) prevItems.

(** [updateQuantity] on any array. *)
Definition updateQuantity_raw (productId : ident) (quantity : Z)
    (prevItems : list element) : option (list element) :=
  if decide (quantity ≤ 0)%Z then removeFromCart_raw productId prevItems
  else
    array_map (λ item : element,
                 read item ≫= λ line : CartLine,
                   Some (if decide (id line = productId)
                         then Line {| fields := line; quantity := quantity |}
                         else item)) prevItems.

(** The array a call leaves, given the array it finds; [None] when the
    updater throws. *)
Definition perform_raw (c : call) (prevItems : list element) : option (list element) :=
  match c with
  | AddToCart product => addToCart_raw product prevItems
  | RemoveFromCart productId => removeFromCart_raw productId prevItems
  | UpdateQuantity productId quantity => updateQuantity_raw productId quantity prevItems
  | ClearCart => Some (map Line clearCart)
  end.

(** [getCartTotal()] and [getCartItemsCount()] on any value of
    [cartItems]: a value that is not an array has no [reduce]. *)
Definition getCartTotal_raw (cartItems : jsvalue) : option float :=
  match cartItems with
  | JArr elements =>
      array_reduce (λ (total : float) (item : element),
                      read item ≫= λ line : CartLine,
                        Some (total + price line * as_double (quantity line))%float)
                   elements 0%float
  | _ => None
  end.

Definition getCartItemsCount_raw (cartItems : jsvalue) : option Z :=
  match cartItems with
  | JArr elements =>
      array_reduce (λ (count : Z) (item : element),
                      read item ≫= λ line : CartLine,
                        Some (count + quantity line)%Z)
                   elements 0%Z
  | _ => None
  end.

(** ** [localStorage]

    [entries] is what the storage holds. When [accessible] is false every
    call throws (storage disabled for the origin). [capacity], when
    given, is the quota in characters of keys and values: [setItem]
    throws rather than exceed it. [written] is the history of the
    [setItem] calls that succeeded, most recent first. *)
Record Storage := mkStorage {
  entries : gmap string string;
  accessible : bool;
  capacity : option nat;
  written : list (string * string)
}.

(** The characters a storage content takes up. *)
Definition used (entries : gmap string string) : nat :=
  map_fold (λ key value total, String.length key + String.length value + total)
           0%nat entries.

(** [setItem(key, value)] would succeed. *)
Definition accepts (ls : Storage) (key value : string) : bool :=
  accessible ls &&
  match capacity ls with
  | None => true
  | Some limit => bool_decide (used (<[key:=value]> (entries ls)) ≤ limit)
  end.

(** Code that reads and writes the storage and may throw: the state is
    threaded, [None] is a thrown exception, and what was written before
    the throw stays written. *)
Definition JS (A : Type) : Type := Storage → option A * Storage.

Definition ret {A : Type} (a : A) : JS A := λ ls, (Some a, ls).

Definition bind {A B : Type} (m : JS A) (k : A → JS B) : JS B :=
  λ ls, match m ls with
        | (Some a, ls') => k a ls'
        | (None, ls') => (None, ls')
        end.

(** [try { body } catch (e) { handler }] *)
Definition try_catch {A : Type} (body handler : JS A) : JS A :=
  λ ls, match body ls with
        | (Some a, ls') => (Some a, ls')
        | (None, ls') => handler ls'
        end.

Notation "'let*' x ':=' m 'in' k" := (bind m (λ x, k))
  (at level 10, x name, m at level 100, k at level 200).
Notation "m ';;' k" := (bind m (λ _, k))
  (at level 100, k at level 200, right associativity).

Definition getItem (key : string) : JS (option string) :=
  λ ls, if accessible ls then (Some (entries ls !! key), ls) else (None, ls).

Definition setItem (key value : string) : JS unit :=
  λ ls, if accepts ls key value
        then (Some (),
              {| entries := <[key:=value]> (entries ls);
                 accessible := accessible ls;
                 capacity := capacity ls;
                 written := (key, value) :: written ls |})
        else (None, ls).

Definition removeItem (key : string) : JS unit :=
  λ ls, if accessible ls
        then (Some (),
              {| entries := delete key (entries ls);
                 accessible := accessible ls;
                 capacity := capacity ls;
                 written := written ls |})
        else (None, ls).

(** ** The build

    [main.jsx] renders the application inside [React.StrictMode]. In a
    development build React then runs the effects of a component that
    mounts, cleans them up and runs them a second time; in a production
    build the effects run once. *)
Inductive build :=
| Production
| Development.

(** ** The checkout form *)

(** The fields of the form, [formData]. *)
Record FormData := mkFormData {
  form_name : string;
  form_email : string;
  form_address : string;
  form_city : string;
  form_zipCode : string;
  form_cardNumber : string;
  form_expiryDate : string;
  form_cvv : string
}.

Record ShippingInfo := mkShippingInfo {
  shipping_name : string;
  shipping_email : string;
  shipping_address : string;
  shipping_city : string;
  shipping_zipCode : string
}.

(** The body sent to the order-creation endpoint. *)
Record Order := mkOrder {
  order_items : list CartLine;
  order_total : float;
  order_shippingInfo : ShippingInfo
}.

(** How [await orderService.create(order)] ends. *)
Inductive reply :=
| Resolved
| Rejected.

(** What [handleSubmit] does, in order. *)
Inductive action :=
| ToastError (message : string)
| ToastSuccess (message : string)
| CreateOrder (order : Order)
| CallClearCart
| Navigate (path : string)
| ConsoleError.

(** [handleSubmit] of the checkout page: [formData] and [cartItems] are
    those of the render, [create] is how the endpoint answers. *)
Definition handleSubmit (formData : FormData) (cartItems : list CartLine)
    (create : Order → reply) : list action :=
  if (length cartItems =? 0)%nat then [ToastError "Your cart is empty!"]
  else
    let order :=
      {| order_items := cartItems;
         order_total := (getCartTotal cartItems + 10)%float;
         order_shippingInfo :=
           {| shipping_name := form_name formData;
              shipping_email := form_email formData;
              shipping_address := form_address formData;
              shipping_city := form_city formData;
              shipping_zipCode := form_zipCode formData |} |} in
    CreateOrder order ::
    match create order with
    | Resolved =>
        [CallClearCart; ToastSuccess "Order placed successfully!"; Navigate "/"]
    | Rejected =>
        [ConsoleError; ToastError "Failed to place order. Please try again."]
    end.

(** The calls on the cart store among the actions of a handler. *)
Definition store_calls (actions : list action) : list call :=
  omap (λ a, match a with CallClearCart => Some ClearCart | _ => None end) actions.

(** The order-creation request was sent and succeeded. *)
Definition order_created (create : Order → reply) (actions : list action) : Prop :=
  ∃ order : Order, CreateOrder order ∈ actions ∧ create order = Resolved.

(** ** The product page *)

(** [handleAddToCart]: [for (let i = 0; i < quantity; i++) addToCart(product)]. *)
Definition handleAddToCart (product : Product) (quantity : nat) : list call :=
  replicate quantity (AddToCart product).

(** The quantity picker of the product page: [setQuantity(Math.max(1,
    quantity - 1))] and [setQuantity(quantity + 1)], from
    [useState(1)]. *)
Inductive picker_click :=
| PickerMinus
| PickerPlus.

Definition pick (quantity : Z) (click : picker_click) : Z :=
  match click with
  | PickerMinus => Z.max 1 (quantity - 1)
  | PickerPlus => (quantity + 1)%Z
  end.

Definition picked (clicks : list picker_click) : Z := fold_left pick clicks 1%Z.

(** The product page's [handleAddToCart] with the picked quantity: the
    loop runs while [i < quantity]. *)
Definition pageAddToCart (product : Product) (quantity : Z) : list call :=
  handleAddToCart product (Z.to_nat quantity).

(** ** The cart page and the navigation bar *)

(** The buttons of a line of the cart page, for the [item] rendered. *)
Definition minusButton (item : CartLine) : call :=
  UpdateQuantity (id item) (quantity item - 1).

Definition plusButton (item : CartLine) : call :=
  UpdateQuantity (id item) (quantity item + 1).

Definition trashButton (item : CartLine) : call := RemoveFromCart (id item).

(** [cartItems.length === 0]: the cart and checkout pages show "Your
    Cart is Empty" instead of their content. *)
Definition showsEmptyCart (cartItems : list CartLine) : bool :=
  (length cartItems =? 0)%nat.

(** [user?.role] of the navigation bar, for the [user] it parsed from
    the storage; [None] is [undefined]. *)
Definition userRole (user : jsvalue) : option jsvalue :=
  match user with
  | JNull => None
  | _ => property user "role"
  end.

(** [userRole !== 'ADMIN']: the navigation bar renders the link to the
    cart. *)
Definition showsCartLink (role : option jsvalue) : bool :=
  match role with
  | Some (JStr s) => negb (String.eqb s "ADMIN")
  | _ => true
  end.

(** [getCartItemsCount() > 0], inside the link to the cart: the
    navigation bar shows the badge. *)
Definition showsBadge (role : option jsvalue) (cartItems : list CartLine) : bool :=
  showsCartLink role && (0 <? getCartItemsCount cartItems)%Z.

#[global] Instance cart_invariant_dec (cart : list CartLine) :
  Decision (cart_invariant cart).
Proof. unfold cart_invariant. apply _. Defined.

(** ** Sample data used by the examples *)

Definition productA : Product := mkProduct (IdNum 1) "A" 10%float None ∅.
Definition productA' : Product :=
  mkProduct (IdNum 1) "A (renamed)" 12%float (Some "a.png") ∅.
Definition productB : Product := mkProduct (IdNum 2) "B" 2.5%float None ∅.

(** Products at 0.1, 0.2 and 0.3, prices that are no doubles: each is
    the double nearest to it. *)
Definition productC : Product := mkProduct (IdNum 3) "C" 0.1%float None ∅.
Definition productD : Product := mkProduct (IdNum 4) "D" 0.2%float None ∅.
Definition productE : Product := mkProduct (IdNum 5) "E" 0.3%float None ∅.

Definition sample_form : FormData :=
  mkFormData "N" "n@example.org" "1 Main St" "Town" "0000" "4000" "12/30" "000".

(** The double quote, and JSON texts built with it. *)
Definition dq : string := String (Ascii.ascii_of_nat 34) EmptyString.
Definition quoted (s : string) : string := dq +:+ s +:+ dq.
Definition member (key value : string) : string := quoted key +:+ ":" +:+ value.

Definition print_id (i : ident) : string :=
  match i with
  | IdNum n => pretty n
  | IdStr s => quoted s
  end.

(** The least [k <= fuel] at or after [k] with [10^k * q] an integer. *)
Fixpoint decimals (fuel : nat) (k : Z) (q : Q) : option Z :=
  match fuel with
  | O => None
  | S fuel' =>
      if ((Qnum q * 10 ^ k) mod Zpos (Qden q) =? 0)%Z then Some k
      else decimals fuel' (k + 1)%Z q
  end.

(** A rational in decimal notation, as many decimals as it needs: [10],
    [2.5]. (One that needs more than twenty decimals is printed as a
    quotient; no example prints one.) *)
Definition print_decimal (q : Q) : string :=
  match decimals 20 0 q with
  | Some 0%Z => pretty (Qnum q / Zpos (Qden q))%Z
  | Some k =>
      let scaled := Z.abs (Qnum q * 10 ^ k / Zpos (Qden q))%Z in
      let fraction := pretty (scaled mod 10 ^ k)%Z in
      (if (Qnum q <? 0)%Z then "-" else "")
      +:+ pretty (scaled / 10 ^ k)%Z +:+ "."
      +:+ String.concat "" (replicate (Z.to_nat k - String.length fraction) "0")
      +:+ fraction
  | None => pretty (Qnum q) +:+ "/" +:+ pretty (Zpos (Qden q))
  end.

(** A price as [JSON.stringify] prints it when its decimal notation is
    short, as it is for the prices the examples save; [null] for the
    doubles that are no numbers of JSON. *)
Definition print_price (x : float) : string :=
  match Prim2SF x with
  | S754_zero _ | S754_finite _ _ _ => print_decimal (exact_value x)
  | _ => "null"
  end.

Definition print_line (item : CartLine) : string :=
  "{" +:+
  String.concat ","
    ([member "id" (print_id (id item));
      member "name" (quoted (name item));
      member "price" (print_price (price item))]
     ++ match imageUrl item with
        | Some url => [member "imageUrl" (quoted url)]
        | None => []
        end
     ++ map (λ kv : string * string, member kv.1 kv.2) (map_to_list (other item))
     ++ [member "quantity" (pretty (quantity item))])
  +:+ "}".

Definition print_element (item : element) : string :=
  match item with
  | Line line => print_line line
  | Null => "null"
  end.

(** [JSON.stringify] on the values the examples save: [null], and arrays
    of lines whose strings need no escaping (properties in the order id,
    name, price, imageUrl, the others, quantity). *)
Definition sample_stringify (v : jsvalue) : string :=
  match v with
  | JNull => "null"
  | JBool true => "true"
  | JBool false => "false"
  | JNum n => pretty n
  | JStr s => quoted s
  | JObj _ => "{}"
  | JArr elements => "[" +:+ String.concat "," (map print_element elements) +:+ "]"
  end.

(** [{"id":7}] and [{"id":0}]: user records. *)
Definition text_user7 : string := "{" +:+ member "id" "7" +:+ "}".
Definition text_user0 : string := "{" +:+ member "id" "0" +:+ "}".

(** [[{"id":1,"name":"A","price":10,"quantity":2}]]: a saved cart. *)
Definition text_cartA2 : string := sample_stringify (JArr [Line (mkLine productA 2)]).

(** [JSON.parse] on the texts the examples store; the only other text
    they store, [not json], is not JSON. *)
Definition sample_parse (text : string) : option jsvalue :=
  if String.eqb text "null" then Some JNull
  else if String.eqb text "[]" then Some (JArr [])
  else if String.eqb text "[null]" then Some (JArr [Null])
  else if String.eqb text text_user7 then Some (JObj {[ "id" := JNum 7 ]})
  else if String.eqb text text_user0 then Some (JObj {[ "id" := JNum 0 ]})
  else if String.eqb text text_cartA2 then Some (JArr [Line (mkLine productA 2)])
  else None.

(** Storages: working and empty; disabled; holding a given map. *)
Definition storage_of (entries : gmap string string) : Storage :=
  {| entries := entries; accessible := true; capacity := None; written := [] |}.

Definition disabled_storage (entries : gmap string string) : Storage :=
  {| entries := entries; accessible := false; capacity := None; written := [] |}.

Definition storage_with_quota (entries : gmap string string) (limit : nat) : Storage :=
  {| entries := entries; accessible := true; capacity := Some limit; written := [] |}.

(** [{"id":8}]: a second user record. *)
Definition text_user8 : string := "{" +:+ member "id" "8" +:+ "}".

(** [JSON.stringify] that also prints the user records of the examples,
    objects with the single property [id]. *)
Definition demo_stringify (v : jsvalue) : string :=
  match v with
  | JObj props =>
      match props !! "id" with
      | Some (JNum n) => "{" +:+ member "id" (pretty n) +:+ "}"
      | _ => "{}"
      end
  | _ => sample_stringify v
  end.

(** [JSON.parse] that also reads the second user record. *)
Definition demo_parse (text : string) : option jsvalue :=
  if String.eqb text text_user8 then Some (JObj {[ "id" := JNum 8 ]})
  else sample_parse text.

(** ** The provider *)

Section Store.

(** [JSON.parse] ([None]: it throws a SyntaxError) and [JSON.stringify]. *)
Variable JSON_parse : string → option jsvalue.
Variable JSON_stringify : jsvalue → string.

Definition parse (text : string) : JS jsvalue := λ ls, (JSON_parse text, ls).

(** [user && user.id] *)
Definition user_id (user : jsvalue) : option jsvalue :=
  if truthy user then property user "id" else None.

(** [getStorageKey]: the key of the cart of the logged-in user, read
    from the [user] entry of the storage. *)
Definition getStorageKey : JS string :=
  try_catch
    (let* stored := getItem "user" in
     let* user := parse (or_else stored "null") in
     ret (match user_id user with
          | Some userId =>
              if truthy userId then "cart_user_" +:+ to_string userId else "cart_guest"
          | None => "cart_guest"
          end))
    (ret "cart_guest").

(** The key [getStorageKey] returns (it never throws, see
    [getStorageKey_returns]). *)
Definition storage_key (ls : Storage) : string :=
  default "cart_guest" (fst (getStorageKey ls)).

(** [loadCartFromStorage]: the value it hands to [setCartItems]. The
    branches are those of the source, the early [return] of the
    migration written as the inner match. ([storageKeyRef.key], which
    only the filter of the storage events reads, is left out.) *)
Definition loadCartFromStorage : JS jsvalue :=
  let* key := getStorageKey in
  try_catch
    (let* perUser := getItem key in
     match present perUser with
     | Some text => parse text
     | None =>
         let* legacy := getItem "cart" in
         match present legacy with
         | Some text =>
             setItem key text ;;
             removeItem "cart" ;;
             parse text
         | None => ret (JArr [])
         end
     end)
    (ret (JArr [])).

(** The effect that saves the cart: [useEffect(..., [cartItems])]. *)
Definition persist (cartItems : jsvalue) : JS unit :=
  try_catch
    (let* key := getStorageKey in
     setItem key (JSON_stringify cartItems))
    (ret ()).

(** The state variable and the storage of the browser context. *)
Record Browser := mkBrowser {
  cartItems : jsvalue;
  localStorage : Storage
}.

(** What one call makes of the state: [clearCart] sets a value, the
    others pass an updater that calls [find], [map] or [filter] on
    [prevItems], a TypeError ([None]) when the state is not an array or
    when a callback reads a property of [null]. *)
Definition apply_call (c : call) (state : jsvalue) : option jsvalue :=
  match c with
  | ClearCart => Some (JArr (map Line clearCart))
  | _ =>
      match state with
      | JArr prevItems => JArr <$> perform_raw c prevItems
      | _ => None
      end
  end.


Fixpoint apply_calls (calls : list call) (state : jsvalue) : option jsvalue :=
  match calls with
  | [] => Some state
  | c :: rest =>
      match apply_call c state with
      | Some next => apply_calls rest next
      | None => None
      end
  end.

(** One event whose handler makes [calls]. React (a root made with
    [createRoot]) queues the [setCartItems] calls of the handler,
    applies them in order, renders once with the state they lead to, and
    then runs the saving effect, since [cartItems] is a new array. No
    call, no render. [None]: an updater threw. *)
Definition handle_event (calls : list call) (b : Browser) : option Browser :=
  match calls with
  | [] => Some b
  | _ =>
      match apply_calls calls (cartItems b) with
      | Some next =>
          Some {| cartItems := next;
                  localStorage := snd (persist next (localStorage b)) |}
      | None => None
      end
  end.

Fixpoint run_events (events : list (list call)) (b : Browser) : option Browser :=
  match events with
  | [] => Some b
  | calls :: rest =>
      match handle_event calls b with
      | Some b' => run_events rest b'
      | None => None
      end
  end.

(** Mounting the provider: the first render has [cartItems = []]; its
    effects run in order, the loading one, then the saving one (which
    still sees [[]]). In a development build [React.StrictMode] then
    cleans up and runs the two effects of that render again, before
    anything is rendered: the second load reads what the first save
    left, and its [setCartItems] is the one that counts. The state set
    last is rendered next and saved. *)
Definition mount (mode : build) (ls : Storage) : Browser :=
  let (loaded, ls1) := loadCartFromStorage ls in
  let ls2 := snd (persist (JArr []) ls1) in
  match mode with
  | Production =>
      let cart := default (JArr []) loaded in
      {| cartItems := cart; localStorage := snd (persist cart ls2) |}
  | Development =>
      let (reloaded, ls3) := loadCartFromStorage ls2 in
      let ls4 := snd (persist (JArr []) ls3) in
      let cart := default (JArr []) reloaded in
      {| cartItems := cart; localStorage := snd (persist cart ls4) |}
  end.

(** The number of writes made between two states of the browser. *)
Definition writes_between (before after : Browser) : nat :=
  length (written (localStorage after)) - length (written (localStorage before)).

(** The carts that get saved while [events] are handled from [cart]:
    one per event that makes a call. *)
Fixpoint snapshots (events : list (list call)) (cart : list CartLine)
  : list (list CartLine) :=
  match events with
  | [] => []
  | [] :: rest => snapshots rest cart
  | calls :: rest =>
      perform_all calls cart :: snapshots rest (perform_all calls cart)
  end.

(** ** The listeners of the provider, login and logout *)

(** The provider with the object [storageKeyRef] that its listeners
    see: the one of the first render, whose [key] the load and the
    first run of the saving effect assign. *)
Record Provider := mkProvider {
  browser : Browser;
  storageKeyRef : string
}.

Definition mountProvider (mode : build) (ls : Storage) : Provider :=
  {| browser := mount mode ls;
     storageKeyRef := storage_key (snd (loadCartFromStorage ls)) |}.

(** A listener calls [loadCartFromStorage()]: the key is noted, the
    loaded value becomes the state, and the render that follows saves
    it. *)
Definition reload (p : Provider) : Provider :=
  let (loaded, ls1) := loadCartFromStorage (localStorage (browser p)) in
  let cart := default (JArr []) loaded in
  {| browser := {| cartItems := cart; localStorage := snd (persist cart ls1) |};
     storageKeyRef := storage_key (localStorage (browser p)) |}.

Definition onAuthChanged (p : Provider) : Provider := reload p.

(** [onStorage]: [e.key] is [None] when the other context cleared the
    storage. *)
Definition onStorage (key : option string) (p : Provider) : Provider :=
  if decide (key = Some (storageKeyRef p) ∨ key = Some "cart") then reload p else p.

(** An event of the views on a mounted provider. *)
Definition provider_event (calls : list call) (p : Provider) : option Provider :=
  (λ b, {| browser := b; storageKeyRef := storageKeyRef p |})
    <$> handle_event calls (browser p).

(** Another browser context stores [value] under [key]: the shared
    storage changes and this context gets the storage event. *)
Definition other_context_stores (key value : string) (p : Provider) : Provider :=
  onStorage (Some key)
    {| browser :=
         {| cartItems := cartItems (browser p);
            localStorage :=
              {| entries := <[key:=value]> (entries (localStorage (browser p)));
                 accessible := accessible (localStorage (browser p));
                 capacity := capacity (localStorage (browser p));
                 written := written (localStorage (browser p)) |} |};
       storageKeyRef := storageKeyRef p |}.

(** [handleSubmit] of the login page: [response] is the token and the
    user of a successful [authService.login], [None] when the request
    is rejected. *)
Definition login_handleSubmit (response : option (string * jsvalue)) (p : Provider)
  : Provider * list action :=
  match response with
  | None => (p, [ToastError "Login failed. Please check your credentials."])
  | Some (token, user) =>
      match (setItem "token" token ;; setItem "user" (JSON_stringify user))
              (localStorage (browser p)) with
      | (Some _, ls) =>
          (onAuthChanged
             {| browser := {| cartItems := cartItems (browser p); localStorage := ls |};
                storageKeyRef := storageKeyRef p |},
           [ToastSuccess "Login successful!"; Navigate "/"])
      | (None, ls) =>
          ({| browser := {| cartItems := cartItems (browser p); localStorage := ls |};
              storageKeyRef := storageKeyRef p |},
           [ToastError "Login failed. Please check your credentials."])
      end
  end.

(** [handleLogout] of the navigation bar. It has no [try]: [None] when
    the storage throws. *)
Definition handleLogout (p : Provider) : option (Provider * list action) :=
  match (removeItem "user" ;; removeItem "token") (localStorage (browser p)) with
  | (Some _, ls) =>
      Some (onAuthChanged
              {| browser := {| cartItems := cartItems (browser p); localStorage := ls |};
                 storageKeyRef := storageKeyRef p |},
            [Navigate "/login"])
  | (None, _) => None
  end.

(** ** Facts about [addToCart] *)

Lemma addToCart_present (product : Product) (prevItems : list CartLine) :
  has_line (id product) prevItems →
  addToCart product prevItems =
    map (λ item : CartLine,
           if decide (id item = id product) then incremented item else item) prevItems.
Proof.
  intros Hhas. unfold addToCart.
  destruct (list_find _ prevItems) as [found|] eqn:Hfind; [done|].
  apply list_find_None in Hfind.
  apply Exists_exists in Hhas as (item & Hin & Hid).
  rewrite Forall_forall in Hfind. by destruct (Hfind item Hin).
Qed.

Lemma addToCart_absent (product : Product) (prevItems : list CartLine) :
  ¬ has_line (id product) prevItems →
  addToCart product prevItems = prevItems ++ [mkLine product 1].
Proof.
  intros Hno. unfold addToCart.
  destruct (list_find _ prevItems) as [[i found]|] eqn:Hfind; [|done].
  apply list_find_Some in Hfind as (Hi & Hid & _).
  destruct Hno. apply Exists_exists. exists found. split; [|done].
  by eapply list_elem_of_lookup_2.
Qed.

Lemma has_line_addToCart (product : Product) (prevItems : list CartLine) :
  has_line (id product) (addToCart product prevItems).
Proof.
  destruct (decide (has_line (id product) prevItems)) as [Hhas|Hno].
  - rewrite addToCart_present by done.
    apply Exists_exists in Hhas as (item & Hin & Hid).
    apply Exists_exists. exists (incremented item). split; [|done].
    apply list_elem_of_fmap. exists item. by rewrite decide_True.
  - rewrite addToCart_absent by done.
    apply Exists_app. right. by apply Exists_cons_hd.
Qed.

Lemma lines_for_absent (productId : ident) (cart : list CartLine) :
  ¬ has_line productId cart → lines_for productId cart = [].
Proof.
  intros Hno. unfold lines_for.
  induction cart as [|item cart IH]; [done|].
  rewrite filter_cons. destruct (decide (id item = productId)) as [Heq|Hne].
  - destruct Hno. by apply Exists_cons_hd.
  - apply IH. intros Hhas. apply Hno. by apply Exists_cons_tl.
Qed.

Lemma lines_for_map_incremented (productId : ident) (cart : list CartLine) :
  lines_for productId
    (map (λ item : CartLine,
            if decide (id item = productId) then incremented item else item) cart)
  = map incremented (lines_for productId cart).
Proof.
  unfold lines_for. induction cart as [|item cart IH]; [done|].
  cbn [map]. rewrite !filter_cons.
  destruct (decide (id item = productId)) as [Heq|Hne].
  - rewrite decide_True by done. cbn [map]. by rewrite IH.
  - rewrite decide_False by done. apply IH.
Qed.

(** Calls for an identifier the cart already holds only raise the
    quantity of its lines, once per call. *)
Lemma lines_for_addAll_present (productId : ident) (products : list Product)
    (cart : list CartLine) :
  Forall (λ product, id product = productId) products →
  has_line productId cart →
  lines_for productId (addAll products cart)
  = map (λ item : CartLine, mkLine item (quantity item + Z.of_nat (length products)))
        (lines_for productId cart).
Proof.
  intros Hall. revert cart.
  induction Hall as [|product products Hid Hall IH]; intros cart Hhas.
  - cbn [addAll fold_left length].
    transitivity (map (λ item : CartLine, item) (lines_for productId cart));
      [symmetry; apply map_id|].
    apply map_ext. intros [f q]. cbn. f_equal. lia.
  - cbn [addAll fold_left]. fold (addAll products (addToCart product cart)).
    rewrite IH by (rewrite <- Hid; apply has_line_addToCart).
    rewrite <- Hid in Hhas. rewrite addToCart_present by done.
    rewrite Hid, lines_for_map_incremented, map_map.
    apply map_ext. intros [f q]. unfold incremented. cbn [fields quantity length].
    f_equal. lia.
Qed.

Lemma lines_for_addAll (first : Product) (more : list Product) (cart : list CartLine) :
  ¬ has_line (id first) cart →
  Forall (λ product, id product = id first) more →
  lines_for (id first) (addAll (first :: more) cart)
  = [mkLine first (Z.of_nat (S (length more)))].
Proof.
  intros Hno Hmore.
  cbn [addAll fold_left]. fold (addAll more (addToCart first cart)).
  rewrite lines_for_addAll_present by (done || apply has_line_addToCart).
  rewrite addToCart_absent by done.
  unfold lines_for at 1. rewrite filter_app, filter_cons, decide_True by done.
  fold (lines_for (id first) cart). rewrite lines_for_absent by done.
  cbn. f_equal. f_equal. lia.
Qed.

(** C1. [addToCart(product)]: when the cart has a line for the product's
    identifier the call adds no line and raises by exactly one the
    quantity of the lines with that identifier, leaving the others as
    they are; when it has none the call appends the product as a new
    line with quantity 1. Hence, from a cart with no line for an
    identifier, any n >= 1 calls with that identifier leave exactly one
    line for it, with quantity n. *)
Theorem addToCart_increments_or_appends (product : Product) (prevItems : list CartLine) :
  (has_line (id product) prevItems →
     length (addToCart product prevItems) = length prevItems
     ∧ ∀ (i : nat) (item : CartLine), prevItems !! i = Some item →
         addToCart product prevItems !! i
         = Some (if decide (id item = id product)
                 then mkLine item (quantity item + 1) else item))
  ∧ (¬ has_line (id product) prevItems →
     addToCart product prevItems = prevItems ++ [mkLine product 1])
  ∧ (¬ has_line (id product) prevItems →
     ∀ more : list Product, Forall (λ p, id p = id product) more →
       lines_for (id product) (addAll (product :: more) prevItems)
       = [mkLine product (Z.of_nat (S (length more)))]).
Proof.
  split; [|split].
  - intros Hhas. rewrite addToCart_present by done. split.
    + apply length_map.
    + intros i item Hi. rewrite list_lookup_fmap, Hi. done.
  - apply addToCart_absent.
  - intros Hno more Hmore. by apply lines_for_addAll.
Qed.

(** ** Facts about [removeFromCart] and [updateQuantity] *)

Lemma removeFromCart_absent (productId : ident) (cart : list CartLine) :
  ¬ has_line productId cart → removeFromCart productId cart = cart.
Proof.
  intros Hno. unfold removeFromCart.
  induction cart as [|item cart IH]; [done|].
  rewrite filter_cons. destruct (decide (id item ≠ productId)) as [Hne|Heq].
  - f_equal. apply IH. intros Hhas. apply Hno. by apply Exists_cons_tl.
  - destruct Hno. apply Exists_cons_hd.
    by destruct (decide (id item = productId)).
Qed.

Lemma removeFromCart_no_line (productId : ident) (cart : list CartLine) :
  ¬ has_line productId (removeFromCart productId cart).
Proof.
  unfold has_line, removeFromCart. rewrite Exists_exists.
  intros (item & Hin & Hid).
  apply list_elem_of_filter in Hin as [Hne _]. done.
Qed.

Lemma updateQuantity_positive (productId : ident) (q : Z) (cart : list CartLine) :
  (0 < q)%Z →
  updateQuantity productId q cart
  = map (λ item : CartLine,
           if decide (id item = productId) then mkLine item q else item) cart.
Proof. intros Hq. unfold updateQuantity. rewrite decide_False by lia. done. Qed.

Lemma map_unmatched (productId : ident) (f : CartLine → CartLine) (cart : list CartLine) :
  ¬ has_line productId cart →
  map (λ item : CartLine, if decide (id item = productId) then f item else item) cart
  = cart.
Proof.
  intros Hno. induction cart as [|item cart IH]; [done|].
  cbn [map]. rewrite decide_False.
  - f_equal. apply IH. intros Hhas. apply Hno. by apply Exists_cons_tl.
  - intros Heq. apply Hno. by apply Exists_cons_hd.
Qed.

(** C3. [updateQuantity(id, q)]: with [q <= 0] it yields exactly the
    cart of [removeFromCart(id)]; with [q > 0] it keeps every line in
    place and sets the quantity of the lines for [id] to [q]; and with
    [q > 0] and no line for [id] the cart is unchanged. *)
Theorem updateQuantity_cases (productId : ident) (q : Z) (cart : list CartLine) :
  ((q ≤ 0)%Z → updateQuantity productId q cart = removeFromCart productId cart)
  ∧ ((0 < q)%Z →
       length (updateQuantity productId q cart) = length cart
       ∧ ∀ (i : nat) (item : CartLine), cart !! i = Some item →
           updateQuantity productId q cart !! i
           = Some (if decide (id item = productId) then mkLine item q else item))
  ∧ ((0 < q)%Z → ¬ has_line productId cart → updateQuantity productId q cart = cart).
Proof.
  split; [|split].
  - intros Hq. unfold updateQuantity. by rewrite decide_True.
  - intros Hq. rewrite updateQuantity_positive by done. split.
    + apply length_map.
    + intros i item Hi. by rewrite list_lookup_fmap, Hi.
  - intros Hq Hno. rewrite updateQuantity_positive by done.
    by apply map_unmatched.
Qed.

(** ** The cart invariant *)

Lemma ids_map_same (f : CartLine → CartLine) (cart : list CartLine) :
  (∀ item : CartLine, id (f item) = id item) →
  map (λ item : CartLine, id item) (map f cart) = map (λ item : CartLine, id item) cart.
Proof.
  intros Hf. rewrite map_map. apply map_ext. intros item. apply Hf.
Qed.

Lemma ids_removeFromCart_NoDup (productId : ident) (cart : list CartLine) :
  NoDup (map (λ item : CartLine, id item) cart) →
  NoDup (map (λ item : CartLine, id item) (removeFromCart productId cart)).
Proof.
  unfold removeFromCart. induction cart as [|item cart IH]; [done|].
  cbn [map]. intros Hnd. apply NoDup_cons in Hnd as [Hnotin Hnd].
  rewrite filter_cons. destruct (decide (id item ≠ productId)); [|by apply IH].
  cbn [map]. apply NoDup_cons. split; [|by apply IH].
  intros Hin. apply Hnotin.
  apply list_elem_of_fmap in Hin as (other_item & Hid & Hin).
  apply list_elem_of_filter in Hin as [_ Hin].
  apply list_elem_of_fmap. by exists other_item.
Qed.

Lemma addToCart_invariant (product : Product) (cart : list CartLine) :
  cart_invariant cart → cart_invariant (addToCart product cart).
Proof.
  intros [Hnd Hq]. destruct (decide (has_line (id product) cart)) as [Hhas|Hno].
  - rewrite addToCart_present by done. split.
    + rewrite ids_map_same; [done|]. intros item. by destruct (decide _).
    + apply Forall_fmap. eapply Forall_impl; [exact Hq|].
      intros item Hitem. cbn in Hitem |- *.
      destruct (decide _); unfold incremented; cbn; lia.
  - rewrite addToCart_absent by done. split.
    + rewrite map_app. cbn [map]. apply NoDup_app. split; [done|]. split.
      * intros x Hx Hin. apply list_elem_of_fmap in Hx as (item & -> & Hitem).
        apply list_elem_of_singleton in Hin.
        apply Hno, Exists_exists. by exists item.
      * apply NoDup_singleton.
    + apply Forall_app. split; [done|]. apply Forall_singleton. cbn. lia.
Qed.

Lemma removeFromCart_invariant (productId : ident) (cart : list CartLine) :
  cart_invariant cart → cart_invariant (removeFromCart productId cart).
Proof.
  intros [Hnd Hq]. split; [by apply ids_removeFromCart_NoDup|].
  unfold removeFromCart. rewrite Forall_forall in Hq |- *.
  intros item Hin. apply Hq. by apply list_elem_of_filter in Hin as [_ Hin].
Qed.

Lemma updateQuantity_invariant (productId : ident) (q : Z) (cart : list CartLine) :
  cart_invariant cart → cart_invariant (updateQuantity productId q cart).
Proof.
  intros Hinv. unfold updateQuantity.
  destruct (decide (q ≤ 0)%Z) as [Hle|Hgt]; [by apply removeFromCart_invariant|].
  destruct Hinv as [Hnd Hq]. split.
  - rewrite ids_map_same; [done|]. intros item. by destruct (decide _).
  - apply Forall_fmap. eapply Forall_impl; [exact Hq|].
    intros item Hitem. cbn in Hitem |- *.
      destruct (decide _); unfold incremented; cbn; lia.
Qed.

Lemma perform_invariant (c : call) (cart : list CartLine) :
  cart_invariant cart → cart_invariant (perform c cart).
Proof.
  destruct c as [product|productId|productId q|]; cbn [perform].
  - apply addToCart_invariant.
  - apply removeFromCart_invariant.
  - apply updateQuantity_invariant.
  - intros _. split; [apply NoDup_nil_2 | apply Forall_nil_2].
Qed.

Lemma perform_all_invariant (calls : list call) (cart : list CartLine) :
  cart_invariant cart → cart_invariant (perform_all calls cart).
Proof.
  revert cart. induction calls as [|c calls IH]; intros cart Hinv; [done|].
  cbn [perform_all fold_left]. apply IH. by apply perform_invariant.
Qed.

(** C2. Every cart reached from the empty cart by a sequence of
    [addToCart], [removeFromCart], [updateQuantity] (with any integer
    quantity) and [clearCart] calls has at most one line per identifier
    and only quantities of at least 1. *)
Theorem reachable_cart_invariant (calls : list call) :
  cart_invariant (perform_all calls []).
Proof.
  apply perform_all_invariant. split.
  - apply NoDup_nil_2.
  - apply Forall_nil_2.
Qed.

(** ** Totals *)

Lemma getCartItemsCount_from (cart : list CartLine) (start : Z) :
  fold_left (λ (count : Z) (item : CartLine), (count + quantity item)%Z) cart start
  = (start + sum_quantity cart)%Z.
Proof.
  revert start. induction cart as [|item cart IH]; intros start.
  - cbn. lia.
  - cbn [fold_left sum_quantity]. rewrite IH. lia.
Qed.

Lemma sum_quantity_nonneg (cart : list CartLine) :
  Forall (λ item : CartLine, (1 ≤ quantity item)%Z) cart →
  (0 ≤ sum_quantity cart)%Z.
Proof.
  induction 1 as [|item cart Hquantity _ IH]; cbn [sum_quantity]; lia.
Qed.

(** The reduce of [getCartTotal] from any starting value adds the
    products of the lines in cart order. *)
Lemma getCartTotal_from (cart : list CartLine) (start : float) :
  fold_left (λ (total : float) (item : CartLine),
               (total + price item * as_double (quantity item))%float) cart start
  = added_in_order start
      (map (λ item : CartLine, (price item * as_double (quantity item))%float) cart).
Proof.
  revert start. induction cart as [|item cart IH]; intros start; [done|].
  cbn [fold_left map]. rewrite IH. done.
Qed.

Lemma getCartTotal_app (cart more : list CartLine) :
  getCartTotal (cart ++ more)
  = added_in_order (getCartTotal cart)
      (map (λ item : CartLine, (price item * as_double (quantity item))%float) more).
Proof.
  unfold getCartTotal at 1. rewrite fold_left_app. apply getCartTotal_from.
Qed.

(** *** The sign of a sum of doubles *)

Lemma leb_zero (x : float) : (0 <=? x)%float = SFnonneg (Prim2SF x).
Proof.
  rewrite leb_spec. change (Prim2SF 0) with (S754_zero false).
  by destruct (Prim2SF x) as [s|[]| |[] m e].
Qed.

Lemma shr_1_nonneg (mrs : shr_record) : (0 ≤ shr_m mrs → 0 ≤ shr_m (shr_1 mrs))%Z.
Proof.
  destruct mrs as [m r s]. cbn [shr_m shr_1].
  destruct m as [|[p|p|]|[p|p|]]; cbn [shr_m]; lia.
Qed.

Lemma iter_pos_shr_1_nonneg (p : positive) (mrs : shr_record) :
  (0 ≤ shr_m mrs → 0 ≤ shr_m (SpecFloat.iter_pos shr_1 p mrs))%Z.
Proof.
  revert mrs. induction p as [p IH|p IH|]; intros mrs Hm; cbn [SpecFloat.iter_pos].
  - apply IH, IH, shr_1_nonneg, Hm.
  - apply IH, IH, Hm.
  - apply shr_1_nonneg, Hm.
Qed.

Lemma shr_fexp_nonneg (m e : Z) (l : location) :
  (0 ≤ m → 0 ≤ shr_m (fst (shr_fexp prec emax m e l)))%Z.
Proof.
  intros Hm. unfold shr_fexp, shr.
  assert (shr_m (shr_record_of_loc m l) = m) as Hrec by (by destruct l as [|[]]).
  destruct (fexp prec emax (Zdigits2 m + e) - e)%Z as [|p|p]; cbn [fst];
    [lia| |lia].
  apply iter_pos_shr_1_nonneg. lia.
Qed.

Lemma round_nearest_even_nonneg (m : Z) (l : location) :
  (0 ≤ m → 0 ≤ round_nearest_even m l)%Z.
Proof.
  intros Hm. destruct l as [|[]]; cbn [round_nearest_even]; try lia.
  destruct (Z.even m); lia.
Qed.

(** Rounding a non-negative mantissa with the positive sign gives a
    zero, a positive number or positive infinity. *)
Lemma binary_round_aux_nonneg (m e : Z) (l : location) :
  (0 ≤ m)%Z → SFnonneg (binary_round_aux prec emax false m e l) = true.
Proof.
  intros Hm. unfold binary_round_aux.
  pose proof (shr_fexp_nonneg m e l Hm) as H1.
  destruct (shr_fexp prec emax m e l) as [mrs' e']. cbn [fst] in H1.
  pose proof (shr_fexp_nonneg _ e' loc_Exact
                (round_nearest_even_nonneg _ (loc_of_shr_record mrs') H1)) as H2.
  destruct (shr_fexp prec emax _ e' loc_Exact) as [mrs'' e'']. cbn [fst] in H2.
  destruct (shr_m mrs'') as [|p|p]; [done| |lia].
  by destruct (e'' <=? emax - prec)%Z.
Qed.

Lemma binary_normalize_nonneg (m e : Z) :
  (0 ≤ m)%Z → SFnonneg (binary_normalize prec emax m e false) = true.
Proof.
  intros Hm. destruct m as [|p|p]; [done| |lia].
  cbn [binary_normalize]. unfold binary_round.
  destruct (shl_align p e _) as [mz ez]. by apply binary_round_aux_nonneg.
Qed.

Lemma SFadd_nonneg (x y : spec_float) :
  SFnonneg x = true → SFnonneg y = true → SFnonneg (SF64add x y) = true.
Proof.
  destruct x as [sx|[]| |[] mx ex], y as [sy|[]| |[] my ey]; try done.
  - intros _ _. by destruct sx, sy.
  - intros _ _. unfold SF64add, SFadd. apply binary_normalize_nonneg.
    cbn [cond_Zopp]. lia.
Qed.

Lemma SFmul_nonneg (x : spec_float) (m : positive) (e : Z) :
  SFnonneg x = true → SFnonneg (SF64mul x (S754_finite false m e)) = true.
Proof.
  destruct x as [sx|[]| |[] mx ex]; try done.
  intros _. unfold SF64mul, SFmul. cbn [xorb]. apply binary_round_aux_nonneg. lia.
Qed.

Lemma digits2_pos_iter (p d : positive) :
  digits2_pos (Pos.iter xO p d) = (digits2_pos p + d)%positive.
Proof.
  induction d as [|d IH] using Pos.peano_ind.
  - cbn. lia.
  - rewrite Pos.iter_succ. cbn [digits2_pos]. rewrite IH. lia.
Qed.

Lemma digits2_pos_size (p : positive) : digits2_pos p = Pos.size p.
Proof. induction p as [p IH|p IH|]; cbn; by rewrite ?IH. Qed.

Lemma digits2_pos_bound (p : positive) :
  (Zpos p < 2 ^ 53)%Z → (Zpos (digits2_pos p) ≤ 53)%Z.
Proof.
  intros Hp. rewrite digits2_pos_size.
  pose proof (Pos.size_le p) as Hle.
  destruct (Z.le_gt_cases (Zpos (Pos.size p)) 53) as [|Hgt]; [done|exfalso].
  assert (2 ^ 54 ≤ 2 ^ Zpos (Pos.size p))%Z as Hpow
    by (apply Z.pow_le_mono_r; lia).
  assert (Zpos (2 ^ Pos.size p) = 2 ^ Zpos (Pos.size p))%Z as Heq
    by (by rewrite Pos2Z.inj_pow).
  assert (Zpos (2 ^ Pos.size p) ≤ Zpos p~0)%Z as Hle' by lia.
  rewrite Heq in Hle'. change (2 ^ 54)%Z with (2 * 2 ^ 53)%Z in Hpow. lia.
Qed.

(** The double of a count from 1 to 2^53 - 1 is a positive number: the
    count needs no rounding, fits the 53 bits of the mantissa, and is
    neither zero nor infinite. *)
Lemma as_double_positive (q : Z) :
  (1 ≤ q < 2 ^ 53)%Z →
  ∃ (m : positive) (e : Z), Prim2SF (as_double q) = S754_finite false m e.
Proof.
  intros [Hlo Hhi]. destruct q as [|p|p]; [lia| |lia].
  pose proof (digits2_pos_bound p Hhi) as Hd.
  assert (∃ (m : positive) (e : Z),
            binary_normalize prec emax (Zpos p) 0 false = S754_finite false m e
            ∧ valid_binary (S754_finite false m e) = true)
    as (m & e & Hnorm & Hvalid).
  { cbn [binary_normalize]. unfold binary_round.
    assert (fexp prec emax (Zpos (digits2_pos p) + 0) = Zpos (digits2_pos p) - 53)%Z
      as Hfexp by (unfold fexp, emin, prec, emax; lia).
    rewrite Hfexp. unfold shl_align.
    destruct (Zpos (digits2_pos p) - 53 - 0)%Z as [|d|d] eqn:Hshift; [|lia|].
    - exists p, 0%Z.
      assert (fexp prec emax (Zdigits2 (Zpos p) + 0) - 0 = 0)%Z as Hstay
        by (cbn [Zdigits2]; rewrite Hfexp; lia).
      unfold binary_round_aux, shr_fexp. rewrite Hstay. cbn [shr shr_record_of_loc].
      cbn [shr_m loc_of_shr_record round_nearest_even]. rewrite Hstay.
      cbn [shr shr_record_of_loc shr_m]. split; [done|].
      unfold valid_binary, SpecFloat.valid_binary, bounded, canonical_mantissa.
      apply andb_true_intro. split; [apply Z.eqb_eq; lia | done].
    - exists (Pos.iter xO p d), (Zpos (digits2_pos p) - 53)%Z.
      assert (fexp prec emax (Zdigits2 (Zpos (Pos.iter xO p d))
                              + (Zpos (digits2_pos p) - 53))
              - (Zpos (digits2_pos p) - 53) = 0)%Z as Hstay.
      { cbn [Zdigits2]. rewrite digits2_pos_iter. unfold fexp, emin, prec, emax. lia. }
      unfold binary_round_aux, shr_fexp. rewrite Hstay. cbn [shr shr_record_of_loc].
      cbn [shr_m loc_of_shr_record round_nearest_even]. rewrite Hstay.
      cbn [shr shr_record_of_loc shr_m].
      assert ((Zpos (digits2_pos p) - 53 <=? emax - prec)%Z = true) as ->
        by (apply Z.leb_le; unfold emax, prec; lia).
      split; [done|].
      unfold valid_binary, SpecFloat.valid_binary, bounded, canonical_mantissa.
      apply andb_true_intro. split; [apply Z.eqb_eq | apply Z.leb_le].
      + rewrite digits2_pos_iter. unfold fexp, emin, prec, emax. lia.
      + unfold emax, prec. lia. }
  exists m, e. unfold as_double. rewrite Hnorm. by apply Prim2SF_SF2Prim.
Qed.

Lemma add_nonneg (x y : float) :
  (0 <=? x)%float = true → (0 <=? y)%float = true → (0 <=? x + y)%float = true.
Proof. rewrite !leb_zero, add_spec. apply SFadd_nonneg. Qed.

Lemma mul_count_nonneg (x : float) (q : Z) :
  (0 <=? x)%float = true → (1 ≤ q < 2 ^ 53)%Z →
  (0 <=? x * as_double q)%float = true.
Proof.
  intros Hx Hq. rewrite leb_zero in *. rewrite mul_spec.
  destruct (as_double_positive q Hq) as (m & e & ->). by apply SFmul_nonneg.
Qed.

Lemma getCartTotal_nonneg_from (cart : list CartLine) (start : float) :
  (0 <=? start)%float = true →
  Forall (λ item : CartLine,
            (0 <=? price item)%float = true ∧ (1 ≤ quantity item < 2 ^ 53)%Z) cart →
  (0 <=? fold_left (λ (total : float) (item : CartLine),
                      (total + price item * as_double (quantity item))%float)
                   cart start)%float = true.
Proof.
  intros Hstart Hlines. revert start Hstart.
  induction Hlines as [|item cart [Hprice Hquantity] _ IH]; intros start Hstart;
    [done|].
  cbn [fold_left]. apply IH, add_nonneg; [done|]. by apply mul_count_nonneg.
Qed.

(** C4 (as amended). [getCartItemsCount()] is the sum of the quantities
    of the lines, and is not negative when the quantities are at least
    1. [getCartTotal()] is a double: the products of price and quantity,
    each rounded, added to 0 one after the other in cart order, each
    sum rounded; a line appended adds its product to the total so far.
    When every price is a double that is at least 0 and every quantity
    is at least 1 (and below 2^53), the total is at least 0. The total
    is not claimed to be the sum without rounding. *)
Theorem cart_totals (cartItems : list CartLine) :
  getCartItemsCount cartItems = sum_quantity cartItems
  ∧ getCartTotal cartItems
    = added_in_order 0
        (map (λ item : CartLine, (price item * as_double (quantity item))%float)
             cartItems)
  ∧ (∀ item : CartLine,
       getCartTotal (cartItems ++ [item])
       = (getCartTotal cartItems + price item * as_double (quantity item))%float)
  ∧ (Forall (λ item : CartLine, (1 ≤ quantity item)%Z) cartItems →
     (0 ≤ getCartItemsCount cartItems)%Z)
  ∧ (Forall (λ item : CartLine,
               (0 <=? price item)%float = true ∧ (1 ≤ quantity item < 2 ^ 53)%Z)
            cartItems →
     (0 <=? getCartTotal cartItems)%float = true).
Proof.
  assert (getCartItemsCount cartItems = sum_quantity cartItems) as Hcount.
  { unfold getCartItemsCount. rewrite getCartItemsCount_from. lia. }
  split; [exact Hcount|]. split; [apply getCartTotal_from|]. split; [|split].
  - intros item. by rewrite getCartTotal_app.
  - intros Hlines. rewrite Hcount. by apply sum_quantity_nonneg.
  - intros Hlines. by apply getCartTotal_nonneg_from.
Qed.

(** ** The frame of [addToCart] on a cart that has the line *)

(** C10. When the cart has a line for the descriptor's identifier,
    [addToCart(d)] keeps the number and the order of the lines, keeps
    every product property (id, name, price, imageUrl and the rest) of
    every line, changes only the quantity of the lines for that
    identifier, by one, and takes nothing else from the descriptor: any
    other descriptor with that identifier gives the same cart. *)
Theorem addToCart_existing_frame (d : Product) (cart : list CartLine) :
  has_line (id d) cart →
  length (addToCart d cart) = length cart
  ∧ (∀ (i : nat) (item : CartLine), cart !! i = Some item →
       ∃ item' : CartLine,
         addToCart d cart !! i = Some item'
         ∧ fields item' = fields item
         ∧ quantity item'
           = if decide (id item = id d) then (quantity item + 1)%Z else quantity item)
  ∧ (∀ d' : Product, id d' = id d → addToCart d' cart = addToCart d cart).
Proof.
  intros Hhas. split; [|split].
  - rewrite addToCart_present by done. apply length_map.
  - intros i item Hi. rewrite addToCart_present by done.
    rewrite list_lookup_fmap, Hi. cbn [fmap option_fmap option_map].
    eexists. split; [reflexivity|].
    destruct (decide (id item = id d)); done.
  - intros d' Hid. rewrite !addToCart_present by (by rewrite ?Hid).
    by rewrite Hid.
Qed.

(** ** The operations on arrays of cart lines and on arrays with [null] *)

Lemma array_find_lines (callback : element → option bool) (test : CartLine → bool)
    (cart : list CartLine) :
  (∀ line : CartLine, callback (Line line) = Some (test line)) →
  array_find callback (map Line cart)
  = Some (match list_find (λ line, test line = true) cart with
          | Some found => Some (Line found.2)
          | None => None
          end).
Proof.
  intros Hcallback. induction cart as [|item cart IH]; [done|].
  cbn [map array_find list_find]. rewrite Hcallback.
  destruct (test item) eqn:Htest.
  - by rewrite decide_True.
  - rewrite decide_False by (by intros ?). rewrite IH.
    by destruct (list_find _ cart) as [[i line]|].
Qed.

Lemma array_map_lines (callback : element → option element) (f : CartLine → CartLine)
    (cart : list CartLine) :
  (∀ line : CartLine, callback (Line line) = Some (Line (f line))) →
  array_map callback (map Line cart) = Some (map Line (map f cart)).
Proof.
  intros Hcallback. induction cart as [|item cart IH]; [done|].
  cbn [map array_map]. by rewrite Hcallback, IH.
Qed.

Lemma array_filter_lines (callback : element → option bool) (test : CartLine → bool)
    (cart : list CartLine) :
  (∀ line : CartLine, callback (Line line) = Some (test line)) →
  array_filter callback (map Line cart)
  = Some (map Line (filter (λ line, test line = true) cart)).
Proof.
  intros Hcallback. induction cart as [|item cart IH]; [done|].
  cbn [map array_filter]. rewrite Hcallback, IH, filter_cons.
  destruct (test item) eqn:Htest.
  - by rewrite decide_True.
  - by rewrite decide_False by (by intros ?).
Qed.

Lemma array_reduce_lines {A : Type} (callback : A → element → option A)
    (step : A → CartLine → A) (cart : list CartLine) (start : A) :
  (∀ (acc : A) (line : CartLine), callback acc (Line line) = Some (step acc line)) →
  array_reduce callback (map Line cart) start = Some (fold_left step cart start).
Proof.
  intros Hcallback. revert start.
  induction cart as [|item cart IH]; intros start; [done|].
  cbn [map array_reduce fold_left]. rewrite Hcallback. apply IH.
Qed.





Lemma removeFromCart_raw_lines (productId : ident) (cart : list CartLine) :
  removeFromCart_raw productId (map Line cart)
  = Some (map Line (removeFromCart productId cart)).
Proof.
  unfold removeFromCart_raw, removeFromCart.
  rewrite (array_filter_lines _ (λ line, bool_decide (id line ≠ productId))) by done.
  do 2 f_equal. apply list_filter_iff. intros line. apply bool_decide_eq_true.
Qed.

(** On an array of cart lines the operations are those on carts. *)
Lemma perform_raw_lines (c : call) (cart : list CartLine) :
  perform_raw c (map Line cart) = Some (map Line (perform c cart)).
Proof.
  destruct c as [product|productId|productId q|]; cbn [perform_raw perform].
  - unfold addToCart_raw, addToCart.
    rewrite (array_find_lines _ (λ line, bool_decide (id line = id product))) by done.
    assert (list_find (λ line : CartLine, bool_decide (id line = id product) = true) cart
            = list_find (λ item : CartLine, id item = id product) cart) as ->.
    { apply list_find_ext. intros line. apply bool_decide_eq_true. }
    destruct (list_find _ cart) as [[i line]|].
    + apply array_map_lines. intros item. cbn [read mbind option_bind].
      by destruct (decide (id item = id product)).
    + by rewrite map_app.
  - apply removeFromCart_raw_lines.
  - unfold updateQuantity_raw, updateQuantity.
    destruct (decide (q ≤ 0)%Z); [apply removeFromCart_raw_lines|].
    apply array_map_lines. intros item. cbn [read mbind option_bind].
    by destruct (decide (id item = productId)).
  - done.
Qed.


Lemma getters_raw_lines (cart : list CartLine) :
  getCartTotal_raw (JArr (map Line cart)) = Some (getCartTotal cart)
  ∧ getCartItemsCount_raw (JArr (map Line cart)) = Some (getCartItemsCount cart).
Proof. split; by apply array_reduce_lines. Qed.



(** ** Facts about the storage key *)

Lemma getStorageKey_returns (ls : Storage) :
  getStorageKey ls = (Some (storage_key ls), ls).
Proof.
  unfold storage_key, getStorageKey, try_catch, bind, getItem, parse, ret.
  destruct (accessible ls); [|done].
  by destruct (JSON_parse _) as [user|].
Qed.

Lemma storage_key_shape (ls : Storage) :
  storage_key ls = "cart_guest"
  ∨ ∃ suffix : string, storage_key ls = "cart_user_" +:+ suffix.
Proof.
  unfold storage_key, getStorageKey, try_catch, bind, getItem, parse, ret.
  destruct (accessible ls); [|by left].
  destruct (JSON_parse _) as [user|]; [|by left]. cbn.
  destruct (user_id user) as [userId|]; [|by left].
  destruct (truthy userId); [right; eauto | by left].
Qed.

Lemma storage_key_not_reserved (ls : Storage) :
  storage_key ls ≠ "user" ∧ storage_key ls ≠ "cart".
Proof.
  destruct (storage_key_shape ls) as [->|[suffix ->]]; split; discriminate.
Qed.

(** The key depends on the storage only through its accessibility and
    its [user] entry. *)
Lemma storage_key_ext (ls ls' : Storage) :
  accessible ls' = accessible ls →
  entries ls' !! "user" = entries ls !! "user" →
  storage_key ls' = storage_key ls.
Proof.
  intros Hacc Huser.
  unfold storage_key, getStorageKey, try_catch, bind, getItem, parse, ret.
  rewrite Hacc, Huser. destruct (accessible ls); [|done].
  by destruct (JSON_parse _).
Qed.

Lemma setItem_cases (key value : string) (ls : Storage) :
  (accepts ls key value = true
   ∧ setItem key value ls
     = (Some (), {| entries := <[key:=value]> (entries ls);
                    accessible := accessible ls;
                    capacity := capacity ls;
                    written := (key, value) :: written ls |}))
  ∨ (accepts ls key value = false ∧ setItem key value ls = (None, ls)).
Proof. unfold setItem. destruct (accepts ls key value); [left|right]; done. Qed.

Lemma storage_key_after_setItem (key value : string) (ls : Storage) :
  key ≠ "user" →
  storage_key (snd (setItem key value ls)) = storage_key ls.
Proof.
  intros Hkey. destruct (setItem_cases key value ls) as [[_ ->]|[_ ->]]; [|done].
  apply storage_key_ext; [done|]. cbn. by rewrite lookup_insert_ne.
Qed.

(** ** Facts about the saving effect *)

Lemma persist_cases (v : jsvalue) (ls : Storage) :
  persist v ls = (Some (), snd (setItem (storage_key ls) (JSON_stringify v) ls)).
Proof.
  unfold persist, try_catch, bind. rewrite getStorageKey_returns.
  by destruct (setItem_cases (storage_key ls) (JSON_stringify v) ls)
    as [[_ ->]|[_ ->]].
Qed.


Lemma persist_accepted (v : jsvalue) (ls : Storage) :
  accepts ls (storage_key ls) (JSON_stringify v) = true →
  persist v ls
  = (Some (), {| entries := <[storage_key ls := JSON_stringify v]> (entries ls);
                 accessible := accessible ls;
                 capacity := capacity ls;
                 written := (storage_key ls, JSON_stringify v) :: written ls |}).
Proof.
  intros Haccepted. rewrite persist_cases.
  destruct (setItem_cases (storage_key ls) (JSON_stringify v) ls)
    as [[_ ->]|[Hacc _]]; [done|congruence].
Qed.

Lemma persist_keeps (v : jsvalue) (ls : Storage) :
  accessible (snd (persist v ls)) = accessible ls
  ∧ capacity (snd (persist v ls)) = capacity ls
  ∧ storage_key (snd (persist v ls)) = storage_key ls
  ∧ ∀ key : string, key ≠ storage_key ls →
      entries (snd (persist v ls)) !! key = entries ls !! key.
Proof.
  rewrite persist_cases. cbn [snd].
  destruct (storage_key_not_reserved ls) as [Huser _].
  split; [|split; [|split]].
  - by destruct (setItem_cases (storage_key ls) (JSON_stringify v) ls) as [[_ ->]|[_ ->]].
  - by destruct (setItem_cases (storage_key ls) (JSON_stringify v) ls) as [[_ ->]|[_ ->]].
  - by apply storage_key_after_setItem.
  - intros key Hkey.
    destruct (setItem_cases (storage_key ls) (JSON_stringify v) ls) as [[_ ->]|[_ ->]];
      [|done].
    cbn. by rewrite lookup_insert_ne.
Qed.

(** ** Facts about loading *)

Lemma loadCartFromStorage_disabled (ls : Storage) :
  accessible ls = false → loadCartFromStorage ls = (Some (JArr []), ls).
Proof.
  intros Hacc. unfold loadCartFromStorage, bind. rewrite getStorageKey_returns.
  unfold try_catch, bind, getItem, ret. by rewrite Hacc.
Qed.

(** A text under the per-identity key is parsed and nothing is written;
    a text that does not parse gives the empty cart. *)
Lemma loadCartFromStorage_direct (ls : Storage) (text : string) :
  accessible ls = true →
  present (entries ls !! storage_key ls) = Some text →
  loadCartFromStorage ls = (Some (default (JArr []) (JSON_parse text)), ls).
Proof.
  intros Hacc Hkey. unfold loadCartFromStorage, bind. rewrite getStorageKey_returns.
  unfold try_catch, bind, getItem, parse, ret. rewrite Hacc, Hkey.
  by destruct (JSON_parse text).
Qed.

Lemma loadCartFromStorage_nothing (ls : Storage) :
  accessible ls = true →
  present (entries ls !! storage_key ls) = None →
  present (entries ls !! "cart") = None →
  loadCartFromStorage ls = (Some (JArr []), ls).
Proof.
  intros Hacc Hkey Hlegacy.
  unfold loadCartFromStorage, bind. rewrite getStorageKey_returns.
  unfold try_catch, bind, getItem, parse, ret.
  repeat (progress (rewrite ?Hacc, ?Hkey, ?Hlegacy; cbn)). done.
Qed.

(** The legacy text is copied and its entry removed before it is
    parsed. *)
Lemma loadCartFromStorage_migrates (ls : Storage) (text : string) :
  present (entries ls !! storage_key ls) = None →
  present (entries ls !! "cart") = Some text →
  accepts ls (storage_key ls) text = true →
  loadCartFromStorage ls
  = (Some (default (JArr []) (JSON_parse text)),
     {| entries := delete "cart" (<[storage_key ls := text]> (entries ls));
        accessible := accessible ls;
        capacity := capacity ls;
        written := (storage_key ls, text) :: written ls |}).
Proof.
  intros Hkey Hlegacy Haccepts.
  assert (accessible ls = true) as Hacc.
  { unfold accepts in Haccepts. by destruct (accessible ls). }
  unfold loadCartFromStorage, bind. rewrite getStorageKey_returns.
  unfold try_catch, bind, getItem, setItem, removeItem, parse, ret.
  repeat (progress (rewrite ?Hacc, ?Hkey, ?Hlegacy, ?Haccepts; cbn)).
  by destruct (JSON_parse text).
Qed.

(** When the copy is refused the load gives the empty cart and the
    storage is as it was. *)
Lemma loadCartFromStorage_copy_refused (ls : Storage) (text : string) :
  accessible ls = true →
  present (entries ls !! storage_key ls) = None →
  present (entries ls !! "cart") = Some text →
  accepts ls (storage_key ls) text = false →
  loadCartFromStorage ls = (Some (JArr []), ls).
Proof.
  intros Hacc Hkey Hlegacy Hrefused.
  unfold loadCartFromStorage, bind. rewrite getStorageKey_returns.
  unfold try_catch, bind, getItem, setItem, removeItem, parse, ret.
  repeat (progress (rewrite ?Hacc, ?Hkey, ?Hlegacy, ?Hrefused; cbn)). done.
Qed.



(** The load changes at most the entry of the current key and [cart],
    and not the key. *)
Lemma loadCartFromStorage_frame (ls : Storage) :
  accessible (snd (loadCartFromStorage ls)) = accessible ls
  ∧ capacity (snd (loadCartFromStorage ls)) = capacity ls
  ∧ storage_key (snd (loadCartFromStorage ls)) = storage_key ls
  ∧ ∀ key : string, key ≠ storage_key ls → key ≠ "cart" →
      entries (snd (loadCartFromStorage ls)) !! key = entries ls !! key.
Proof.
  destruct (accessible ls) eqn:Hacc;
    [|by rewrite loadCartFromStorage_disabled].
  destruct (present (entries ls !! storage_key ls)) as [text|] eqn:Hkey;
    [by rewrite (loadCartFromStorage_direct ls text)|].
  destruct (present (entries ls !! "cart")) as [text|] eqn:Hlegacy;
    [|by rewrite loadCartFromStorage_nothing].
  destruct (accepts ls (storage_key ls) text) eqn:Haccepts;
    [|by rewrite (loadCartFromStorage_copy_refused ls text)].
  rewrite (loadCartFromStorage_migrates ls text) by done. cbn [snd].
  destruct (storage_key_not_reserved ls) as [Huser Hcart].
  split; [done|]. split; [done|]. split.
  - apply storage_key_ext; [done|]. cbn [entries].
    by rewrite lookup_delete_ne, lookup_insert_ne.
  - intros key Hne Hne'. cbn [entries].
    by rewrite lookup_delete_ne, lookup_insert_ne.
Qed.

(** The cart a mounted provider starts with: what the load gives in a
    production build, what the second load gives in a development
    build. *)
Lemma mount_production (ls : Storage) :
  cartItems (mount Production ls) = default (JArr []) (fst (loadCartFromStorage ls)).
Proof. unfold mount. by destruct (loadCartFromStorage ls). Qed.




(** Saving the empty cart on a storage that takes every write. *)
Lemma persist_empty (ls : Storage) :
  accessible ls = true → capacity ls = None →
  JSON_stringify (JArr []) = "[]" →
  accessible (snd (persist (JArr []) ls)) = true
  ∧ capacity (snd (persist (JArr []) ls)) = None
  ∧ storage_key (snd (persist (JArr []) ls)) = storage_key ls
  ∧ entries (snd (persist (JArr []) ls)) !! storage_key ls = Some "[]".
Proof.
  intros Hacc Hcap Hstringify.
  destruct (persist_keeps (JArr []) ls) as (Hacc' & Hcap' & Hkey' & _).
  split; [congruence|]. split; [congruence|]. split; [done|].
  rewrite persist_accepted by (unfold accepts; by rewrite Hacc, Hcap).
  cbn [snd entries]. rewrite Hstringify. apply lookup_insert_eq.
Qed.

(** In a development build, on a storage that takes every write, the
    second load reads the empty array that the first run of the saving
    effect wrote: the provider starts with the empty cart, whatever the
    storage held. *)
Lemma mount_development_empty (ls : Storage) :
  accessible ls = true → capacity ls = None →
  JSON_stringify (JArr []) = "[]" → JSON_parse "[]" = Some (JArr []) →
  cartItems (mount Development ls) = JArr []
  ∧ entries (localStorage (mount Development ls)) !! storage_key ls = Some "[]".
Proof.
  intros Hacc Hcap Hstringify Hparse.
  destruct (loadCartFromStorage_frame ls) as (Hacc1 & Hcap1 & Hkey1 & _).
  unfold mount. destruct (loadCartFromStorage ls) as [loaded ls1]. cbn [snd] in *.
  destruct (persist_empty ls1) as (Hacc2 & Hcap2 & Hkey2 & Hentry2);
    [congruence | congruence | exact Hstringify |].
  set (ls2 := snd (persist (JArr []) ls1)) in *.
  rewrite (loadCartFromStorage_direct ls2 "[]"); [|done|by rewrite Hkey2, Hentry2].
  rewrite Hparse. cbn [default].
  destruct (persist_empty ls2) as (Hacc3 & Hcap3 & Hkey3 & _); [done..|].
  set (ls3 := snd (persist (JArr []) ls2)) in *.
  destruct (persist_empty ls3) as (_ & _ & _ & Hentry4); [done..|].
  cbn [cartItems localStorage]. split; [done|].
  rewrite <- Hkey1, <- Hkey2, <- Hkey3. exact Hentry4.
Qed.

(** ** Facts about events *)

Lemma perform_all_app (calls more : list call) (cart : list CartLine) :
  perform_all (calls ++ more) cart = perform_all more (perform_all calls cart).
Proof. unfold perform_all. apply fold_left_app. Qed.

(** On a state that is an array of cart lines a call does what it does
    on the cart. *)
Lemma apply_call_array (c : call) (lines : list CartLine) :
  apply_call c (JArr (map Line lines)) = Some (JArr (map Line (perform c lines))).
Proof.
  destruct c; cbn [apply_call]; by rewrite ?perform_raw_lines.
Qed.



Lemma apply_calls_array (calls : list call) (lines : list CartLine) :
  apply_calls calls (JArr (map Line lines))
  = Some (JArr (map Line (perform_all calls lines))).
Proof.
  revert lines. induction calls as [|c calls IH]; intros lines; [done|].
  cbn [apply_calls]. rewrite apply_call_array. apply IH.
Qed.

Lemma handle_event_array (calls : list call) (lines : list CartLine) (ls : Storage) :
  calls ≠ [] →
  handle_event calls (mkBrowser (JArr (map Line lines)) ls)
  = Some (mkBrowser (JArr (map Line (perform_all calls lines)))
                    (snd (persist (JArr (map Line (perform_all calls lines))) ls))).
Proof.
  intros Hcalls. unfold handle_event. destruct calls as [|c calls]; [done|].
  cbn [cartItems localStorage]. by rewrite apply_calls_array.
Qed.


Lemma snapshots_length (events : list (list call)) (lines : list CartLine) :
  length (snapshots events lines)
  = length (filter (λ calls : list call, calls ≠ []) events).
Proof.
  revert lines. induction events as [|calls events IH]; intros lines; [done|].
  rewrite filter_cons. destruct calls as [|c calls].
  - rewrite decide_False by (by intros []). apply IH.
  - rewrite decide_True by done. cbn [snapshots length]. by rewrite IH.
Qed.

Lemma snapshots_one_call_each (events : list (list call)) (lines : list CartLine) :
  Forall (λ calls : list call, length calls = 1%nat) events →
  length (snapshots events lines) = length (concat events).
Proof.
  intros Hone. revert lines.
  induction Hone as [|calls events Hcalls _ IH]; intros lines; [done|].
  destruct calls as [|c [|c' calls]]; try discriminate Hcalls.
  cbn [snapshots concat length app]. by rewrite IH.
Qed.

Lemma snapshots_nil (events : list (list call)) (lines : list CartLine) :
  snapshots events lines = [] → concat events = [].
Proof.
  induction events as [|[|c calls] events IH]; [done| |done].
  cbn [snapshots concat app]. apply IH.
Qed.

Lemma snapshots_last (events : list (list call)) (lines : list CartLine) :
  snapshots events lines ≠ [] →
  last (snapshots events lines) = Some (perform_all (concat events) lines).
Proof.
  revert lines. induction events as [|calls events IH]; intros lines Hsome; [done|].
  cbn [concat]. rewrite perform_all_app.
  destruct calls as [|c calls]; [by apply IH|].
  cbn [snapshots] in *. rewrite last_cons.
  destruct (snapshots events (perform_all (c :: calls) lines)) eqn:Hrest.
  - by rewrite (snapshots_nil _ _ Hrest).
  - rewrite <- Hrest, IH by (by rewrite Hrest). done.
Qed.

(** Handling [events] from a state that is an array of cart lines never
    throws, whatever the storage does; each event that makes a call
    makes one attempt to write, so at most one write; a storage that
    cannot be accessed is left as it is. *)
Lemma run_events_lines (events : list (list call)) (b : Browser)
    (lines : list CartLine) :
  cartItems b = JArr (map Line lines) →
  ∃ b' : Browser,
    run_events events b = Some b'
    ∧ cartItems b' = JArr (map Line (perform_all (concat events) lines))
    ∧ (∃ new : list (string * string),
         written (localStorage b') = new ++ written (localStorage b)
         ∧ (length new ≤ length (snapshots events lines))%nat)
    ∧ (accessible (localStorage b) = false → localStorage b' = localStorage b).
Proof.
  revert b lines. induction events as [|calls events IH]; intros [state ls] lines.
  - cbn. intros ->. eexists. split; [done|]. split; [done|]. split; [|done].
    by exists [].
  - cbn [cartItems localStorage]. intros ->. destruct calls as [|c calls].
    + destruct (IH (mkBrowser (JArr (map Line lines)) ls) lines eq_refl)
        as (b' & Hrun & Hstate & Hnew & Hdisabled).
      exists b'. cbn [run_events handle_event concat app snapshots]. done.
    + set (cart := perform_all (c :: calls) lines).
      destruct (IH (mkBrowser (JArr (map Line cart))
                              (snd (persist (JArr (map Line cart)) ls))) cart eq_refl)
        as (b' & Hrun & Hstate & (new & Hnew & Hlength) & Hdisabled).
      cbn [cartItems localStorage] in *.
      exists b'. cbn [run_events]. rewrite handle_event_array by done. fold cart.
      split; [exact Hrun|]. split.
      { rewrite Hstate. cbn [concat]. by rewrite perform_all_app. }
      rewrite persist_cases in Hnew, Hdisabled. cbn [snd] in Hnew, Hdisabled.
      destruct (setItem_cases (storage_key ls) (JSON_stringify (JArr (map Line cart))) ls)
        as [[Haccepts Hset]|[Hrefused Hset]]; rewrite Hset in Hnew, Hdisabled;
        cbn [snd written accessible] in Hnew, Hdisabled.
      * split.
        -- exists (new ++ [(storage_key ls, JSON_stringify (JArr (map Line cart)))]).
           split; [by rewrite <- app_assoc|].
           rewrite length_app. cbn [snapshots length]. fold cart. lia.
        -- intros Hacc. unfold accepts in Haccepts. by rewrite Hacc in Haccepts.
      * split; [|done]. exists new. split; [done|].
        cbn [snapshots length]. fold cart. lia.
Qed.

(** With a storage that takes every write, each event that makes a call
    adds one write, of the cart as the whole event leaves it. *)
Lemma run_events_writes (events : list (list call)) (b : Browser)
    (lines : list CartLine) :
  accessible (localStorage b) = true →
  capacity (localStorage b) = None →
  cartItems b = JArr (map Line lines) →
  ∃ b' : Browser,
    run_events events b = Some b'
    ∧ cartItems b' = JArr (map Line (perform_all (concat events) lines))
    ∧ accessible (localStorage b') = true
    ∧ capacity (localStorage b') = None
    ∧ storage_key (localStorage b') = storage_key (localStorage b)
    ∧ written (localStorage b')
      = rev (map (λ cart : list CartLine,
                    (storage_key (localStorage b), JSON_stringify (JArr (map Line cart))))
                 (snapshots events lines))
        ++ written (localStorage b)
    ∧ entries (localStorage b') !! storage_key (localStorage b)
      = match last (snapshots events lines) with
        | Some cart => Some (JSON_stringify (JArr (map Line cart)))
        | None => entries (localStorage b) !! storage_key (localStorage b)
        end.
Proof.
  revert b lines. induction events as [|calls events IH]; intros [state ls] lines.
  - cbn. intros Hacc Hcap ->. eexists. repeat split; done.
  - cbn [cartItems localStorage]. intros Hacc Hcap ->.
    destruct calls as [|c calls].
    + destruct (IH (mkBrowser (JArr (map Line lines)) ls) lines Hacc Hcap eq_refl)
        as (b' & Hrun & Hstate & Hacc' & Hcap' & Hkey & Hwritten & Hentries).
      exists b'. cbn [run_events handle_event concat app snapshots]. done.
    + set (cart := perform_all (c :: calls) lines).
      assert (accepts ls (storage_key ls) (JSON_stringify (JArr (map Line cart))) = true)
        as Haccepts by (unfold accepts; by rewrite Hacc, Hcap).
      pose proof (persist_accepted (JArr (map Line cart)) ls Haccepts) as Hpersist.
      destruct (persist_keeps (JArr (map Line cart)) ls) as (Hacc1 & Hcap1 & Hkey1 & _).
      destruct (IH (mkBrowser (JArr (map Line cart))
                              (snd (persist (JArr (map Line cart)) ls))) cart)
        as (b' & Hrun & Hstate & Hacc' & Hcap' & Hkey & Hwritten & Hentries).
      { cbn [localStorage]. congruence. }
      { cbn [localStorage]. congruence. }
      { done. }
      cbn [cartItems localStorage] in *.
      exists b'. cbn [run_events]. rewrite handle_event_array by done. fold cart.
      split; [exact Hrun|]. split.
      { rewrite Hstate. cbn [concat]. by rewrite perform_all_app. }
      split; [done|]. split; [done|]. split; [congruence|].
      rewrite Hkey1 in Hwritten, Hentries. split.
      * rewrite Hwritten, Hpersist. cbn [snapshots map rev snd written]. fold cart.
        by rewrite <- app_assoc.
      * rewrite Hentries, Hpersist. cbn [snapshots snd entries]. fold cart.
        rewrite last_cons. destruct (last (snapshots events cart)); [done|].
        by rewrite lookup_insert_eq.
Qed.

(** ** Facts about the checkout *)

Lemma handleSubmit_nonempty (formData : FormData) (item : CartLine)
    (items : list CartLine) (create : Order → reply) :
  ∃ order : Order,
    order_items order = item :: items
    ∧ handleSubmit formData (item :: items) create
      = CreateOrder order ::
        match create order with
        | Resolved =>
            [CallClearCart; ToastSuccess "Order placed successfully!"; Navigate "/"]
        | Rejected =>
            [ConsoleError; ToastError "Failed to place order. Please try again."]
        end.
Proof. eexists. split; [|reflexivity]. done. Qed.

(** The three ways [handleSubmit] can go. *)
Lemma handleSubmit_cases (formData : FormData) (items : list CartLine)
    (create : Order → reply) :
  handleSubmit formData items create = [ToastError "Your cart is empty!"]
  ∨ (∃ order : Order, create order = Resolved
       ∧ handleSubmit formData items create
         = [CreateOrder order; CallClearCart;
            ToastSuccess "Order placed successfully!"; Navigate "/"])
  ∨ (∃ order : Order, create order = Rejected
       ∧ handleSubmit formData items create
         = [CreateOrder order; ConsoleError;
            ToastError "Failed to place order. Please try again."]).
Proof.
  destruct items as [|item items]; [by left|]. right.
  destruct (handleSubmit_nonempty formData item items create) as (order & _ & ->).
  destruct (create order) eqn:Hreply; [left|right]; eauto.
Qed.

(** ** The provider: storage failures, migration, checkout, saving, keys *)



(** C7. [handleSubmit] calls [clearCart()] exactly when the order
    request was sent and succeeded; then the cart, whatever it holds
    when the answer arrives, becomes empty; otherwise the handler leaves
    the cart as it is. *)
Theorem checkout_clears_iff_created (formData : FormData)
    (items : list CartLine) (create : Order → reply) (current : list CartLine) :
  (CallClearCart ∈ handleSubmit formData items create
   ↔ order_created create (handleSubmit formData items create))
  ∧ (order_created create (handleSubmit formData items create) →
     perform_all (store_calls (handleSubmit formData items create)) current = [])
  ∧ (¬ order_created create (handleSubmit formData items create) →
     perform_all (store_calls (handleSubmit formData items create)) current = current).
Proof.
  destruct (handleSubmit_cases formData items create)
    as [Hacts|[(order & Hreply & Hacts)|(order & Hreply & Hacts)]];
    rewrite Hacts; unfold order_created.
  - (* empty cart: nothing is sent, nothing is cleared *)
    assert (¬ ∃ o : Order, CreateOrder o ∈ [ToastError "Your cart is empty!"]
                           ∧ create o = Resolved) as Hnone.
    { intros (o & Hin & _). apply list_elem_of_singleton in Hin. discriminate Hin. }
    split; [|split]; [|by intros ?|done].
    split; [|by intros ?].
    intros Hin. apply list_elem_of_singleton in Hin. discriminate Hin.
  - (* the request succeeded *)
    split; [|split]; [|done|].
    + split; intros _.
      * exists order. split; [apply elem_of_cons; by left|done].
      * apply elem_of_cons. right. apply elem_of_cons. by left.
    + intros Hnot. destruct Hnot. exists order.
      split; [apply elem_of_cons; by left|done].
  - (* the request failed *)
    assert (¬ ∃ o : Order,
                CreateOrder o ∈ [CreateOrder order; ConsoleError;
                                 ToastError "Failed to place order. Please try again."]
                ∧ create o = Resolved) as Hnone.
    { intros (o & Hin & Hres). rewrite !elem_of_cons, elem_of_nil in Hin.
      destruct Hin as [Heq|[Heq|[Heq|[]]]]; try discriminate Heq.
      injection Heq as ->. congruence. }
    split; [|split]; [|by intros ?|done].
    split; [|by intros ?].
    intros Hin. rewrite !elem_of_cons, elem_of_nil in Hin.
    destruct Hin as [Heq|[Heq|[Heq|[]]]]; discriminate Heq.
Qed.

(** C8 (as amended). From a state that is an array of cart lines, the
    calls made during one event are applied in order and followed by
    one attempt to write the whole cart they lead to under the current
    key; an event that makes no call writes nothing. Whatever the
    storage does, nothing throws, the state is the one the calls lead
    to, and there are at most as many writes as events that make a
    call; a storage that cannot be accessed is left as it is. On a
    storage that takes every write there is exactly one write per event
    that makes a call, of the cart as that event leaves it: calls made
    one per event cause as many writes as calls, the calls of one event
    cause a single write, and the key holds the last cart. *)
Theorem one_write_per_event (events : list (list call)) (b : Browser)
    (lines : list CartLine) :
  cartItems b = JArr (map Line lines) →
  ∃ b' : Browser,
    run_events events b = Some b'
    ∧ cartItems b' = JArr (map Line (perform_all (concat events) lines))
    ∧ (writes_between b b' ≤ length (filter (λ calls : list call, calls ≠ []) events))%nat
    ∧ (accessible (localStorage b) = false → localStorage b' = localStorage b)
    ∧ length (snapshots events lines)
      = length (filter (λ calls : list call, calls ≠ []) events)
    ∧ (Forall (λ calls : list call, length calls = 1%nat) events →
       length (snapshots events lines) = length (concat events))
    ∧ (accessible (localStorage b) = true → capacity (localStorage b) = None →
       written (localStorage b')
       = rev (map (λ cart : list CartLine,
                     (storage_key (localStorage b),
                      JSON_stringify (JArr (map Line cart))))
                  (snapshots events lines))
         ++ written (localStorage b)
       ∧ writes_between b b'
         = length (filter (λ calls : list call, calls ≠ []) events)
       ∧ (snapshots events lines ≠ [] →
          entries (localStorage b') !! storage_key (localStorage b)
          = Some (JSON_stringify (cartItems b')))).
Proof.
  intros Hstate.
  destruct (run_events_lines events b lines Hstate)
    as (b' & Hrun & Hstate' & (new & Hnew & Hlength) & Hdisabled).
  exists b'. split; [done|]. split; [done|]. split.
  { unfold writes_between. rewrite Hnew, length_app, <- (snapshots_length events lines).
    lia. }
  split; [done|]. split; [apply snapshots_length|].
  split; [apply snapshots_one_call_each|].
  intros Hacc Hcap.
  destruct (run_events_writes events b lines Hacc Hcap Hstate)
    as (b'' & Hrun' & _ & _ & _ & _ & Hwritten & Hentries).
  assert (b'' = b') as -> by congruence.
  split; [done|]. split.
  - unfold writes_between.
    rewrite Hwritten, length_app, length_rev, length_map,
      (snapshots_length events lines). lia.
  - intros Hsome. rewrite Hentries, snapshots_last, Hstate' by done. done.
Qed.

(** C9 (as amended). When the [user] entry parses to a value whose [id]
    is truthy the key is [cart_user_] followed by that id; when the
    storage cannot be read, when there is no [user] entry, when it does
    not parse, or when the value has no truthy [id], the key is
    [cart_guest]. The cart is saved under that key, and the legacy text
    is read from [cart]. *)
Theorem storage_key_of_identity (ls : Storage) :
  (∀ (text : string) (user userId : jsvalue),
      accessible ls = true →
      entries ls !! "user" = Some text → text ≠ "" →
      JSON_parse text = Some user →
      user_id user = Some userId → truthy userId = true →
      getStorageKey ls = (Some ("cart_user_" +:+ to_string userId), ls))
  ∧ (accessible ls = false → getStorageKey ls = (Some "cart_guest", ls))
  ∧ (JSON_parse "null" = Some JNull →
     present (entries ls !! "user") = None →
     getStorageKey ls = (Some "cart_guest", ls))
  ∧ (∀ text : string,
      present (entries ls !! "user") = Some text →
      (JSON_parse text = None
       ∨ ∃ user : jsvalue, JSON_parse text = Some user
           ∧ (user_id user = None
              ∨ ∃ userId, user_id user = Some userId ∧ truthy userId = false)) →
      getStorageKey ls = (Some "cart_guest", ls))
  ∧ (∀ v : jsvalue,
      accepts ls (storage_key ls) (JSON_stringify v) = true →
      entries (snd (persist v ls)) !! storage_key ls = Some (JSON_stringify v))
  ∧ (∀ text : string,
      present (entries ls !! storage_key ls) = None →
      present (entries ls !! "cart") = Some text →
      accepts ls (storage_key ls) text = true →
      fst (loadCartFromStorage ls) = Some (default (JArr []) (JSON_parse text))).
Proof.
  split; [|split; [|split; [|split; [|split]]]].
  - intros text user userId Hacc Huser Hnonempty Hparse Hid Htruthy.
    assert (present (Some text) = Some text) as Hpresent by (by destruct text).
    unfold getStorageKey, try_catch, bind, getItem, parse, ret.
    unfold or_else. rewrite Hacc, Huser, Hpresent.
    by rewrite Hparse, Hid, Htruthy.
  - intros Hacc. unfold getStorageKey, try_catch, bind, getItem, parse, ret.
    by rewrite Hacc.
  - intros Hnull Huser. unfold getStorageKey, try_catch, bind, getItem, parse, ret.
    destruct (accessible ls); [|done]. unfold or_else. rewrite Huser.
    by rewrite Hnull.
  - intros text Huser Hcases.
    unfold getStorageKey, try_catch, bind, getItem, parse, ret.
    destruct (accessible ls); [|done]. unfold or_else. rewrite Huser.
    destruct Hcases as [Hparse|(user & Hparse & [Hid|(userId & Hid & Hfalsy)])];
      rewrite Hparse; [done|by rewrite Hid|by rewrite Hid, Hfalsy].
  - intros v Haccepts. rewrite persist_accepted by done. cbn [snd entries].
    by rewrite lookup_insert_eq.
  - intros text Hkey Hlegacy Haccepts.
    by rewrite (loadCartFromStorage_migrates ls text).
Qed.

(** ** More about the cart operations *)

Lemma getCartItemsCount_sum (cart : list CartLine) :
  getCartItemsCount cart = sum_quantity cart.
Proof. unfold getCartItemsCount. rewrite getCartItemsCount_from. lia. Qed.

Lemma sum_quantity_app (cart more : list CartLine) :
  sum_quantity (cart ++ more) = (sum_quantity cart + sum_quantity more)%Z.
Proof. induction cart as [|item cart IH]; cbn; lia. Qed.

(** Removing the lines of an identifier takes their quantities off the
    count. *)
Lemma sum_quantity_removeFromCart (productId : ident) (cart : list CartLine) :
  sum_quantity (removeFromCart productId cart)
  = (sum_quantity cart - sum_quantity (lines_for productId cart))%Z.
Proof.
  unfold removeFromCart, lines_for. induction cart as [|item cart IH]; [done|].
  rewrite !filter_cons. destruct (decide (id item = productId)) as [Heq|Hne].
  - rewrite decide_False by (by intros ?). cbn [sum_quantity]. lia.
  - rewrite decide_True by done. cbn [sum_quantity]. lia.
Qed.

Lemma lines_for_removeFromCart_other (productId other_id : ident)
    (cart : list CartLine) :
  other_id ≠ productId →
  lines_for other_id (removeFromCart productId cart) = lines_for other_id cart.
Proof.
  intros Hne. unfold removeFromCart, lines_for.
  induction cart as [|item cart IH]; [done|].
  rewrite !filter_cons. destruct (decide (id item ≠ productId)) as [Hkeep|Hdrop].
  - rewrite filter_cons. destruct (decide (id item = other_id)); by rewrite IH.
  - rewrite decide_False; [done|].
    intros Heq. apply Hdrop. congruence.
Qed.

Lemma removeFromCart_comm (a b : ident) (cart : list CartLine) :
  removeFromCart a (removeFromCart b cart) = removeFromCart b (removeFromCart a cart).
Proof.
  unfold removeFromCart. induction cart as [|item cart IH]; [done|].
  rewrite !filter_cons.
  destruct (decide (id item ≠ b)), (decide (id item ≠ a));
    rewrite ?filter_cons, ?decide_True, ?decide_False by done; by rewrite IH.
Qed.

(** In a cart with one line per identifier, the lines for the identifier
    of a line of the cart are that line alone. *)
Lemma lines_for_unique (item : CartLine) (cart : list CartLine) :
  NoDup (map (λ item : CartLine, id item) cart) →
  item ∈ cart →
  lines_for (id item) cart = [item].
Proof.
  unfold lines_for. induction cart as [|first cart IH]; intros Hnd Hin.
  - by apply elem_of_nil in Hin.
  - cbn [map] in Hnd. apply NoDup_cons in Hnd as [Hfresh Hnd].
    rewrite filter_cons. apply elem_of_cons in Hin as [->|Hin].
    + rewrite decide_True by done. f_equal.
      fold (lines_for (id first) cart). apply lines_for_absent.
      intros Hhas. apply Exists_exists in Hhas as (other_item & Hother & Hid).
      apply Hfresh, list_elem_of_fmap. by exists other_item.
    + rewrite decide_False; [by apply IH|].
      intros Heq. apply Hfresh, list_elem_of_fmap. by exists item.
Qed.

Lemma lines_for_at_most_one (productId : ident) (cart : list CartLine) :
  NoDup (map (λ item : CartLine, id item) cart) →
  lines_for productId cart = []
  ∨ ∃ item : CartLine, item ∈ cart ∧ id item = productId
      ∧ lines_for productId cart = [item].
Proof.
  intros Hnd. destruct (decide (has_line productId cart)) as [Hhas|Hno].
  - right. apply Exists_exists in Hhas as (item & Hin & <-).
    exists item. split; [done|]. split; [done|]. by apply lines_for_unique.
  - left. by apply lines_for_absent.
Qed.

(** Rewriting the quantity of the lines of an identifier changes the
    sums by the difference on those lines. *)
Lemma sum_quantity_map_set (productId : ident) (f : CartLine → Z)
    (cart : list CartLine) :
  sum_quantity
    (map (λ item : CartLine,
            if decide (id item = productId) then mkLine item (f item) else item) cart)
  = (sum_quantity cart - sum_quantity (lines_for productId cart)
     + sum_quantity (map (λ item : CartLine, mkLine item (f item))
                         (lines_for productId cart)))%Z.
Proof.
  unfold lines_for. induction cart as [|item cart IH]; [done|].
  cbn [map sum_quantity]. rewrite filter_cons.
  destruct (decide (id item = productId)); cbn [map sum_quantity quantity]; lia.
Qed.

(** X1. Removing a product and adding it again leaves one fresh line for
    it, with quantity 1 and the descriptor's properties, after the lines
    of the other products, whatever the cart held for it before. *)
Theorem removeFromCart_then_addToCart (product : Product) (cart : list CartLine) :
  addToCart product (removeFromCart (id product) cart)
  = removeFromCart (id product) cart ++ [mkLine product 1]
  ∧ lines_for (id product) (addToCart product (removeFromCart (id product) cart))
    = [mkLine product 1]
  ∧ ∀ other_id : ident, other_id ≠ id product →
      lines_for other_id (addToCart product (removeFromCart (id product) cart))
      = lines_for other_id cart.
Proof.
  assert (addToCart product (removeFromCart (id product) cart)
          = removeFromCart (id product) cart ++ [mkLine product 1]) as Hadd.
  { apply addToCart_absent, removeFromCart_no_line. }
  rewrite Hadd. split; [done|]. split.
  - unfold lines_for at 1. rewrite filter_app, filter_cons, decide_True by done.
    fold (lines_for (id product) (removeFromCart (id product) cart)).
    rewrite lines_for_absent by apply removeFromCart_no_line. done.
  - intros other_id Hne. unfold lines_for at 1.
    rewrite filter_app, filter_cons, decide_False by (cbn; congruence).
    fold (lines_for other_id (removeFromCart (id product) cart)).
    rewrite lines_for_removeFromCart_other by done. apply app_nil_r.
Qed.

(** X2. [removeFromCart(id)] leaves no line for the identifier and the
    lines of every other identifier as they were; the item count drops
    by the quantities removed; removing again changes nothing, and
    removals commute. *)
Theorem removeFromCart_effect (productId : ident) (cart : list CartLine) :
  lines_for productId (removeFromCart productId cart) = []
  ∧ (∀ other_id : ident, other_id ≠ productId →
       lines_for other_id (removeFromCart productId cart) = lines_for other_id cart)
  ∧ getCartItemsCount (removeFromCart productId cart)
    = (getCartItemsCount cart - getCartItemsCount (lines_for productId cart))%Z
  ∧ removeFromCart productId (removeFromCart productId cart)
    = removeFromCart productId cart
  ∧ ∀ other_id : ident,
      removeFromCart other_id (removeFromCart productId cart)
      = removeFromCart productId (removeFromCart other_id cart).
Proof.
  split; [|split; [|split; [|split]]].
  - apply lines_for_absent, removeFromCart_no_line.
  - intros other_id Hne. by apply lines_for_removeFromCart_other.
  - rewrite !getCartItemsCount_sum. apply sum_quantity_removeFromCart.
  - apply removeFromCart_absent, removeFromCart_no_line.
  - intros other_id. apply removeFromCart_comm.
Qed.

Lemma addToCart_count (product : Product) (cart : list CartLine) :
  NoDup (map (λ item : CartLine, id item) cart) →
  sum_quantity (addToCart product cart) = (sum_quantity cart + 1)%Z.
Proof.
  intros Hnd. destruct (decide (has_line (id product) cart)) as [Hhas|Hno].
  - rewrite addToCart_present by done. unfold incremented.
    rewrite (sum_quantity_map_set (id product) (λ item, quantity item + 1)%Z).
    destruct (lines_for_at_most_one (id product) cart Hnd)
      as [Hnone|(item & _ & _ & ->)].
    + exfalso. apply Exists_exists in Hhas as (item & Hin & Hid).
      assert (item ∈ lines_for (id product) cart) as Hitem
        by (by apply list_elem_of_filter).
      rewrite Hnone in Hitem. by apply elem_of_nil in Hitem.
    + cbn. lia.
  - rewrite addToCart_absent by done. rewrite sum_quantity_app. cbn. lia.
Qed.

(** In a cart with one line per identifier, [addToCart] for a product
    the cart holds rewrites that line in place. *)
Lemma addToCart_in_place (product : Product) (before after : list CartLine)
    (item : CartLine) :
  NoDup (map (λ item : CartLine, id item) (before ++ item :: after)) →
  id item = id product →
  addToCart product (before ++ item :: after) = before ++ incremented item :: after.
Proof.
  intros Hnd Hid. rewrite map_app in Hnd. cbn [map] in Hnd.
  apply NoDup_app in Hnd as (_ & Hbefore & Hnd).
  apply NoDup_cons in Hnd as [Hafter _].
  assert (¬ has_line (id product) before) as Hno.
  { intros Hhas. apply Exists_exists in Hhas as (other_item & Hin & Hother).
    apply (Hbefore (id other_item)).
    - apply list_elem_of_fmap. by exists other_item.
    - apply elem_of_cons. left. congruence. }
  assert (¬ has_line (id product) after) as Hno'.
  { intros Hhas. apply Exists_exists in Hhas as (other_item & Hin & Hother).
    apply Hafter. apply list_elem_of_fmap. exists other_item. split; [congruence|done]. }
  rewrite addToCart_present
    by (apply Exists_app; right; by apply Exists_cons_hd).
  rewrite map_app. cbn [map]. rewrite decide_True by done.
  by rewrite (map_unmatched (id product) incremented before),
             (map_unmatched (id product) incremented after).
Qed.

(** X3. In a cart with one line per identifier, [addToCart] raises the
    item count by one. For a product the cart does not hold, the total
    becomes the total so far plus the descriptor's price times 1, as
    doubles. For a product the cart holds, neither the descriptor's
    price nor the total so far enters the new total: it is the total of
    the lines before that line, plus the line's own price times its
    raised quantity, plus the products of the lines after it, added
    again one by one. With rounding that is not always the old total
    plus the price: there are carts where the two differ. *)
Theorem addToCart_totals (product : Product) (cart : list CartLine) :
  cart_invariant cart →
  getCartItemsCount (addToCart product cart) = (getCartItemsCount cart + 1)%Z
  ∧ (¬ has_line (id product) cart →
     getCartTotal (addToCart product cart)
     = (getCartTotal cart + price product * as_double 1)%float)
  ∧ (∀ (before after : list CartLine) (item : CartLine),
       cart = before ++ item :: after → id item = id product →
       getCartTotal (addToCart product cart)
       = added_in_order
           (getCartTotal before + price item * as_double (quantity item + 1))%float
           (map (λ item : CartLine, (price item * as_double (quantity item))%float)
                after))
  ∧ ∃ (held : Product) (lines : list CartLine),
      cart_invariant lines ∧ has_line (id held) lines
      ∧ (getCartTotal (addToCart held lines) =? getCartTotal lines + price held)%float
        = false.
Proof.
  intros [Hnd _]. split; [|split; [|split]].
  - rewrite !getCartItemsCount_sum. by apply addToCart_count.
  - intros Hno. rewrite addToCart_absent by done. by rewrite getCartTotal_app.
  - intros before after item -> Hid. rewrite addToCart_in_place by done.
    by rewrite getCartTotal_app.
  - exists productC, [mkLine productC 1; mkLine productD 2].
    split; [by_evaluation|]. split; [by_evaluation|]. vm_compute. reflexivity.
Qed.

(** ** The buttons of the cart page, the badge, the product page *)

Lemma same_line (item other_item : CartLine) (cart : list CartLine) :
  NoDup (map (λ item : CartLine, id item) cart) →
  item ∈ cart → other_item ∈ cart → id other_item = id item →
  other_item = item.
Proof.
  intros Hnd Hin Hother Hid.
  assert (other_item ∈ lines_for (id item) cart) as Hline
    by (by apply list_elem_of_filter).
  rewrite (lines_for_unique item cart Hnd Hin) in Hline.
  by apply list_elem_of_singleton in Hline.
Qed.

Lemma updateQuantity_count (item : CartLine) (q : Z) (cart : list CartLine) :
  NoDup (map (λ item : CartLine, id item) cart) →
  item ∈ cart →
  sum_quantity (updateQuantity (id item) q cart)
  = (sum_quantity cart - quantity item + Z.max 0 q)%Z.
Proof.
  intros Hnd Hin. unfold updateQuantity.
  destruct (decide (q ≤ 0)%Z) as [Hle|Hgt].
  - rewrite sum_quantity_removeFromCart, (lines_for_unique item cart) by done.
    cbn. lia.
  - rewrite (sum_quantity_map_set (id item) (λ _, q)).
    rewrite (lines_for_unique item cart) by done. cbn. lia.
Qed.

(** X4. The buttons of a line of the cart page, in a cart with one line
    per identifier and quantities of at least 1: plus does what
    [addToCart] does for that product; the count goes up by one with
    plus, down by one with minus, down by the line's quantity with the
    trash button; minus on a quantity of 1 removes the line; and above
    1, minus followed by plus on the line as rendered anew gives back
    the cart. *)
Theorem cart_page_buttons (item : CartLine) (cart : list CartLine) :
  cart_invariant cart → item ∈ cart →
  perform (plusButton item) cart = addToCart item cart
  ∧ getCartItemsCount (perform (plusButton item) cart) = (getCartItemsCount cart + 1)%Z
  ∧ getCartItemsCount (perform (minusButton item) cart) = (getCartItemsCount cart - 1)%Z
  ∧ getCartItemsCount (perform (trashButton item) cart)
    = (getCartItemsCount cart - quantity item)%Z
  ∧ (quantity item = 1%Z →
     perform (minusButton item) cart = removeFromCart (id item) cart)
  ∧ ((1 < quantity item)%Z →
     perform (plusButton (mkLine item (quantity item - 1)))
       (perform (minusButton item) cart) = cart).
Proof.
  intros [Hnd Hquantities] Hin.
  assert (1 ≤ quantity item)%Z as Hq.
  { rewrite Forall_forall in Hquantities. by apply Hquantities. }
  assert (perform (plusButton item) cart = addToCart item cart) as Hplus.
  { cbn [perform plusButton]. rewrite updateQuantity_positive by lia.
    rewrite addToCart_present by (apply Exists_exists; by exists item).
    apply map_ext_in. intros other_item Hother. apply list_elem_of_In in Hother.
    destruct (decide (id other_item = id item)) as [Hid|Hid]; [|done].
    by rewrite (same_line item other_item cart). }
  split; [exact Hplus|]. split; [|split; [|split; [|split]]].
  - rewrite Hplus, !getCartItemsCount_sum. by apply addToCart_count.
  - cbn [perform minusButton]. rewrite !getCartItemsCount_sum.
    rewrite updateQuantity_count by done. lia.
  - cbn [perform trashButton]. rewrite !getCartItemsCount_sum.
    rewrite sum_quantity_removeFromCart, (lines_for_unique item cart) by done.
    cbn. lia.
  - intros Hone. cbn [perform minusButton]. unfold updateQuantity.
    by rewrite decide_True by lia.
  - intros Hmore. cbn [perform minusButton plusButton id fields quantity].
    replace (quantity item - 1 + 1)%Z with (quantity item) by lia.
    rewrite (updateQuantity_positive _ (quantity item - 1)) by lia.
    rewrite updateQuantity_positive by lia. rewrite map_map.
    rewrite <- (map_id cart) at 2. apply map_ext_in.
    intros other_item Hother. apply list_elem_of_In in Hother.
    destruct (decide (id other_item = id item)) as [Hid|Hid].
    + rewrite (same_line item other_item cart) by done.
      cbn [fields]. rewrite decide_True by done. by destruct item.
    + by rewrite decide_False.
Qed.

Lemma length_le_sum_quantity (cart : list CartLine) :
  Forall (λ item : CartLine, (1 ≤ quantity item)%Z) cart →
  (Z.of_nat (length cart) ≤ sum_quantity cart)%Z.
Proof. induction 1 as [|item cart Hitem _ IH]; cbn [length sum_quantity]; lia. Qed.

(** X5. Whatever calls were made since the empty cart: for a user who
    is not an administrator (no user, or a role other than [ADMIN]) the
    badge of the navigation bar shows exactly when the cart page does
    not show the empty-cart message; for an administrator the
    navigation bar shows neither the link to the cart nor the badge,
    whatever the cart holds. The count of the badge is at least the
    number of lines. *)
Theorem badge_matches_cart_page (calls : list call) (user : jsvalue) :
  (userRole user ≠ Some (JStr "ADMIN") →
   showsBadge (userRole user) (perform_all calls [])
   = negb (showsEmptyCart (perform_all calls [])))
  ∧ (userRole user = Some (JStr "ADMIN") →
     showsCartLink (userRole user) = false
     ∧ showsBadge (userRole user) (perform_all calls []) = false)
  ∧ (Z.of_nat (length (perform_all calls [])) ≤ getCartItemsCount (perform_all calls []))%Z.
Proof.
  assert (cart_invariant (perform_all calls [])) as [_ Hquantities].
  { apply perform_all_invariant. split; [apply NoDup_nil_2 | apply Forall_nil_2]. }
  pose proof (length_le_sum_quantity _ Hquantities) as Hle.
  unfold showsBadge, showsEmptyCart. rewrite getCartItemsCount_sum.
  split; [|split; [|done]].
  - intros Hrole.
    assert (showsCartLink (userRole user) = true) as ->.
    { destruct (userRole user) as [[| | |role| |]|]; try done. cbn [showsCartLink].
      destruct (String.eqb role "ADMIN") eqn:Heq; [|done].
      apply String.eqb_eq in Heq. by subst role. }
    cbn [andb]. destruct (perform_all calls []) as [|item cart]; [done|].
    cbn [length] in *. apply Z.ltb_lt. lia.
  - intros ->. done.
Qed.

Lemma picked_from (clicks : list picker_click) (start : Z) :
  (1 ≤ start)%Z → (1 ≤ fold_left pick clicks start)%Z.
Proof.
  revert start. induction clicks as [|click clicks IH]; intros start Hstart; [done|].
  cbn [fold_left]. apply IH. destruct click; cbn [pick]; lia.
Qed.

Lemma handleAddToCart_count (product : Product) (n : nat) (cart : list CartLine) :
  cart_invariant cart →
  cart_invariant (perform_all (handleAddToCart product n) cart)
  ∧ sum_quantity (perform_all (handleAddToCart product n) cart)
    = (sum_quantity cart + Z.of_nat n)%Z
  ∧ (n ≠ 0%nat → has_line (id product) (perform_all (handleAddToCart product n) cart)).
Proof.
  unfold handleAddToCart. revert cart.
  induction n as [|n IH]; intros cart Hinv.
  - cbn. split; [done|]. split; [lia|done].
  - cbn [replicate perform_all fold_left perform].
    fold (perform_all (replicate n (AddToCart product)) (addToCart product cart)).
    destruct (IH (addToCart product cart) (addToCart_invariant product cart Hinv))
      as (Hinv' & Hcount & Hline).
    split; [done|]. split.
    + rewrite Hcount, addToCart_count by apply Hinv. lia.
    + intros _. destruct n as [|n]; [apply has_line_addToCart|]. by apply Hline.
Qed.

(** X6. The quantity picked on the product page is never below 1, and
    "Add to Cart" then raises the item count by exactly the picked
    quantity, keeps the cart invariant and leaves exactly one line for
    the product. *)
Theorem product_page_adds_picked_quantity (clicks : list picker_click)
    (product : Product) (cart : list CartLine) :
  cart_invariant cart →
  (1 ≤ picked clicks)%Z
  ∧ cart_invariant (perform_all (pageAddToCart product (picked clicks)) cart)
  ∧ getCartItemsCount (perform_all (pageAddToCart product (picked clicks)) cart)
    = (getCartItemsCount cart + picked clicks)%Z
  ∧ length (lines_for (id product)
              (perform_all (pageAddToCart product (picked clicks)) cart)) = 1%nat.
Proof.
  intros Hinv.
  assert (1 ≤ picked clicks)%Z as Hpicked by (by apply picked_from).
  destruct (handleAddToCart_count product (Z.to_nat (picked clicks)) cart Hinv)
    as (Hinv' & Hcount & Hline).
  unfold pageAddToCart. split; [done|]. split; [done|]. split.
  - rewrite !getCartItemsCount_sum, Hcount. lia.
  - destruct Hinv' as [Hnd _].
    destruct (lines_for_at_most_one (id product) _ Hnd)
      as [Hnone|(item & _ & _ & ->)]; [|done].
    exfalso.
    assert (has_line (id product)
              (perform_all (handleAddToCart product (Z.to_nat (picked clicks))) cart))
      as Hhas by (apply Hline; lia).
    apply Exists_exists in Hhas as (item & Hin & Hid).
    assert (item ∈ lines_for (id product)
              (perform_all (handleAddToCart product (Z.to_nat (picked clicks))) cart))
      as Hitem by (by apply list_elem_of_filter).
    rewrite Hnone in Hitem. by apply elem_of_nil in Hitem.
Qed.

(** ** More about the provider *)

Lemma storage_key_not_token (ls : Storage) : storage_key ls ≠ "token".
Proof. destruct (storage_key_shape ls) as [->|[suffix ->]]; discriminate. Qed.

Lemma handle_event_frame (calls : list call) (b b' : Browser) :
  handle_event calls b = Some b' →
  accessible (localStorage b') = accessible (localStorage b)
  ∧ capacity (localStorage b') = capacity (localStorage b)
  ∧ storage_key (localStorage b') = storage_key (localStorage b)
  ∧ ∀ key : string, key ≠ storage_key (localStorage b) →
      entries (localStorage b') !! key = entries (localStorage b) !! key.
Proof.
  unfold handle_event. destruct calls as [|c calls].
  - intros [= <-]. done.
  - destruct (apply_calls (c :: calls) (cartItems b)) as [next|]; [|done].
    intros [= <-]. cbn [localStorage]. apply persist_keeps.
Qed.

Lemma run_events_frame (events : list (list call)) (b b' : Browser) :
  run_events events b = Some b' →
  accessible (localStorage b') = accessible (localStorage b)
  ∧ capacity (localStorage b') = capacity (localStorage b)
  ∧ storage_key (localStorage b') = storage_key (localStorage b)
  ∧ ∀ key : string, key ≠ storage_key (localStorage b) →
      entries (localStorage b') !! key = entries (localStorage b) !! key.
Proof.
  revert b. induction events as [|calls events IH]; intros b Hrun.
  - injection Hrun as <-. done.
  - cbn [run_events] in Hrun.
    destruct (handle_event calls b) as [b1|] eqn:Hstep; [|done].
    destruct (handle_event_frame calls b b1 Hstep) as (Hacc & Hcap & Hkey & Hother).
    destruct (IH b1 Hrun) as (Hacc' & Hcap' & Hkey' & Hother').
    split; [congruence|]. split; [congruence|]. split; [congruence|].
    intros key Hne. rewrite Hother' by congruence. by apply Hother.
Qed.

Lemma mount_frame (mode : build) (ls : Storage) :
  accessible (localStorage (mount mode ls)) = accessible ls
  ∧ capacity (localStorage (mount mode ls)) = capacity ls
  ∧ storage_key (localStorage (mount mode ls)) = storage_key ls
  ∧ ∀ key : string, key ≠ storage_key ls → key ≠ "cart" →
      entries (localStorage (mount mode ls)) !! key = entries ls !! key.
Proof.
  destruct (loadCartFromStorage_frame ls) as (Hacc & Hcap & Hkey & Hother).
  unfold mount. destruct (loadCartFromStorage ls) as [loaded ls1].
  cbn [snd] in *.
  destruct (persist_keeps (JArr []) ls1) as (Hacc1 & Hcap1 & Hkey1 & Hother1).
  destruct mode.
  - cbn [localStorage].
    destruct (persist_keeps (default (JArr []) loaded) (snd (persist (JArr []) ls1)))
      as (Hacc2 & Hcap2 & Hkey2 & Hother2).
    split; [congruence|]. split; [congruence|]. split; [congruence|].
    intros key Hne Hne'. rewrite Hother2, Hother1 by congruence. by apply Hother.
  - destruct (loadCartFromStorage_frame (snd (persist (JArr []) ls1)))
      as (Hacc2 & Hcap2 & Hkey2 & Hother2).
    destruct (loadCartFromStorage (snd (persist (JArr []) ls1))) as [reloaded ls3].
    cbn [snd] in *. cbn [localStorage].
    destruct (persist_keeps (JArr []) ls3) as (Hacc3 & Hcap3 & Hkey3 & Hother3).
    destruct (persist_keeps (default (JArr []) reloaded) (snd (persist (JArr []) ls3)))
      as (Hacc4 & Hcap4 & Hkey4 & Hother4).
    split; [congruence|]. split; [congruence|]. split; [congruence|].
    intros key Hne Hne'.
    rewrite Hother4, Hother3, Hother2, Hother1 by congruence. by apply Hother.
Qed.

(** X8. The provider never touches what it does not own: mounting, in
    either build, changes at most the entry of the current key and the
    legacy entry [cart], and the events of the views change at most the entry of the
    current key; the [user] and [token] entries, hence the key of the
    cart, stay as they are. *)
Theorem provider_writes_only_cart_entries (mode : build) (ls : Storage)
    (events : list (list call)) :
  (∀ key : string, key ≠ storage_key ls → key ≠ "cart" →
     entries (localStorage (mount mode ls)) !! key = entries ls !! key)
  ∧ (∀ b' : Browser, run_events events (mount mode ls) = Some b' →
       storage_key (localStorage b') = storage_key ls
       ∧ entries (localStorage b') !! "user" = entries ls !! "user"
       ∧ entries (localStorage b') !! "token" = entries ls !! "token"
       ∧ ∀ key : string, key ≠ storage_key ls → key ≠ "cart" →
           entries (localStorage b') !! key = entries ls !! key).
Proof.
  destruct (mount_frame mode ls) as (_ & _ & Hkey & Hother).
  destruct (storage_key_not_reserved ls) as [Huser Hcart].
  pose proof (storage_key_not_token ls) as Htoken.
  split; [exact Hother|].
  intros b' Hrun.
  destruct (run_events_frame events (mount mode ls) b' Hrun) as (_ & _ & Hkey' & Hother').
  rewrite Hkey in Hkey', Hother'.
  split; [done|]. split; [|split].
  - rewrite Hother' by done. by apply Hother.
  - rewrite Hother' by done. by apply Hother.
  - intros key Hne Hne'. rewrite Hother' by done. by apply Hother.
Qed.

(** X7. The checkout on a provider whose storage takes the write: when
    the order was created the state becomes the empty cart, whatever it
    held, even a value that is no array, and the empty cart is what is
    saved, in one write; when it was not, nothing is rendered and
    nothing is written. *)
Theorem checkout_on_provider (formData : FormData) (items : list CartLine)
    (create : Order → reply) (b : Browser) :
  accessible (localStorage b) = true →
  capacity (localStorage b) = None →
  (order_created create (handleSubmit formData items create) →
     ∃ b' : Browser,
       handle_event (store_calls (handleSubmit formData items create)) b = Some b'
       ∧ cartItems b' = JArr []
       ∧ entries (localStorage b') !! storage_key (localStorage b)
         = Some (JSON_stringify (JArr []))
       ∧ writes_between b b' = 1%nat)
  ∧ (¬ order_created create (handleSubmit formData items create) →
     handle_event (store_calls (handleSubmit formData items create)) b = Some b).
Proof.
  intros Hacc Hcap.
  assert (accepts (localStorage b) (storage_key (localStorage b))
            (JSON_stringify (JArr [])) = true) as Haccepts.
  { unfold accepts. by rewrite Hacc, Hcap. }
  unfold order_created.
  destruct (handleSubmit_cases formData items create)
    as [Hacts|[(order & Hreply & Hacts)|(order & Hreply & Hacts)]]; rewrite Hacts.
  - split; [|done]. intros (o & Hin & _).
    apply list_elem_of_singleton in Hin. discriminate Hin.
  - split.
    + intros _. eexists. split; [reflexivity|]. cbn [cartItems localStorage].
      split; [done|]. unfold writes_between. cbn [localStorage].
      rewrite persist_accepted by done. cbn [snd entries written length].
      split; [by rewrite lookup_insert_eq | lia].
    + intros Hnot. destruct Hnot. exists order.
      split; [apply elem_of_cons; by left | done].
  - split; [|done]. intros (o & Hin & Hres).
    rewrite !elem_of_cons, elem_of_nil in Hin.
    destruct Hin as [Heq|[Heq|[Heq|[]]]]; try discriminate Heq.
    injection Heq as ->. congruence.
Qed.

(** X9. What the events save is what a later mount of a production
    build starts with: after events that made at least one call, from a
    state that is an array of cart lines and on a storage that takes the
    writes, mounting the provider anew from the storage they leave gives
    the cart they led to, provided [JSON.parse] reads back what
    [JSON.stringify] wrote for that cart. A later mount of a development
    build starts with the empty cart instead, and saves it. *)
Theorem saved_cart_survives_reload (events : list (list call)) (b : Browser)
    (lines : list CartLine) :
  accessible (localStorage b) = true →
  capacity (localStorage b) = None →
  cartItems b = JArr (map Line lines) →
  snapshots events lines ≠ [] →
  JSON_stringify (JArr (map Line (perform_all (concat events) lines))) ≠ "" →
  JSON_parse (JSON_stringify (JArr (map Line (perform_all (concat events) lines))))
  = Some (JArr (map Line (perform_all (concat events) lines))) →
  ∃ b' : Browser,
    run_events events b = Some b'
    ∧ cartItems b' = JArr (map Line (perform_all (concat events) lines))
    ∧ cartItems (mount Production (localStorage b')) = cartItems b'
    ∧ (JSON_stringify (JArr []) = "[]" → JSON_parse "[]" = Some (JArr []) →
       cartItems (mount Development (localStorage b')) = JArr []
       ∧ entries (localStorage (mount Development (localStorage b')))
           !! storage_key (localStorage b) = Some "[]").
Proof.
  intros Hacc Hcap Hstate Hsome Hnonempty Hround.
  destruct (run_events_writes events b lines Hacc Hcap Hstate)
    as (b' & Hrun & Hstate' & Hacc' & Hcap' & Hkey & _ & Hentries).
  rewrite snapshots_last in Hentries by done.
  exists b'. split; [done|]. split; [done|]. split.
  - rewrite mount_production, Hstate'.
    rewrite (loadCartFromStorage_direct (localStorage b')
               (JSON_stringify (JArr (map Line (perform_all (concat events) lines))))).
    + by rewrite Hround.
    + done.
    + rewrite Hkey, Hentries.
      by destruct (JSON_stringify (JArr (map Line (perform_all (concat events) lines)))).
  - intros Hstringify Hparse. rewrite <- Hkey.
    by apply mount_development_empty.
Qed.

(** ** Reloading, login and logout, other browser contexts *)

Lemma storage_key_logged_in (ls : Storage) (text : string) (user userId : jsvalue) :
  accessible ls = true →
  entries ls !! "user" = Some text → text ≠ "" →
  JSON_parse text = Some user →
  user_id user = Some userId → truthy userId = true →
  storage_key ls = "cart_user_" +:+ to_string userId.
Proof.
  intros Hacc Huser Hnonempty Hparse Hid Htruthy.
  assert (present (Some text) = Some text) as Hpresent by (by destruct text).
  unfold storage_key, getStorageKey, try_catch, bind, getItem, parse, ret, or_else.
  rewrite Hacc, Huser, Hpresent. by rewrite Hparse, Hid, Htruthy.
Qed.

Lemma storage_key_nobody (ls : Storage) :
  JSON_parse "null" = Some JNull →
  present (entries ls !! "user") = None →
  storage_key ls = "cart_guest".
Proof.
  intros Hnull Huser.
  unfold storage_key, getStorageKey, try_catch, bind, getItem, parse, ret, or_else.
  destruct (accessible ls); [|done]. rewrite Huser. by rewrite Hnull.
Qed.

(** What a reload makes of the state, on a storage that takes every
    write. *)
Lemma reload_cart (p : Provider) :
  accessible (localStorage (browser p)) = true →
  capacity (localStorage (browser p)) = None →
  cartItems (browser (reload p))
  = match present (entries (localStorage (browser p))
                     !! storage_key (localStorage (browser p))) with
    | Some text => default (JArr []) (JSON_parse text)
    | None =>
        match present (entries (localStorage (browser p)) !! "cart") with
        | Some text => default (JArr []) (JSON_parse text)
        | None => JArr []
        end
    end.
Proof.
  intros Hacc Hcap. unfold reload.
  set (ls := localStorage (browser p)) in *.
  destruct (present (entries ls !! storage_key ls)) as [text|] eqn:Hkey.
  { by rewrite (loadCartFromStorage_direct ls text). }
  destruct (present (entries ls !! "cart")) as [text|] eqn:Hlegacy.
  - rewrite (loadCartFromStorage_migrates ls text); [done..|].
    unfold accepts. by rewrite Hacc, Hcap.
  - by rewrite loadCartFromStorage_nothing.
Qed.

Lemma reload_frame (p : Provider) :
  storageKeyRef (reload p) = storage_key (localStorage (browser p))
  ∧ accessible (localStorage (browser (reload p))) = accessible (localStorage (browser p))
  ∧ capacity (localStorage (browser (reload p))) = capacity (localStorage (browser p))
  ∧ storage_key (localStorage (browser (reload p)))
    = storage_key (localStorage (browser p))
  ∧ ∀ key : string,
      key ≠ storage_key (localStorage (browser p)) → key ≠ "cart" →
      entries (localStorage (browser (reload p))) !! key
      = entries (localStorage (browser p)) !! key.
Proof.
  destruct (loadCartFromStorage_frame (localStorage (browser p)))
    as (Hacc & Hcap & Hkey & Hother).
  unfold reload. destruct (loadCartFromStorage (localStorage (browser p)))
    as [loaded ls1].
  cbn [snd] in *. cbn [browser storageKeyRef localStorage].
  destruct (persist_keeps (default (JArr []) loaded) ls1)
    as (Hacc1 & Hcap1 & Hkey1 & Hother1).
  split; [done|]. split; [congruence|]. split; [congruence|]. split; [congruence|].
  intros key Hne Hne'. rewrite Hother1 by congruence. by apply Hother.
Qed.

(** The storage after the two writes of a successful login. *)
Lemma login_writes (token text : string) (ls : Storage) :
  accessible ls = true → capacity ls = None →
  (setItem "token" token ;; setItem "user" text) ls
  = (Some (),
     {| entries := <["user" := text]> (<["token" := token]> (entries ls));
        accessible := true;
        capacity := None;
        written := ("user", text) :: ("token", token) :: written ls |}).
Proof.
  intros Hacc Hcap. unfold bind, setItem, accepts. rewrite Hacc, Hcap. cbn.
  done.
Qed.

Lemma logout_removes (ls : Storage) :
  accessible ls = true →
  (removeItem "user" ;; removeItem "token") ls
  = (Some (),
     {| entries := delete "token" (delete "user" (entries ls));
        accessible := true;
        capacity := capacity ls;
        written := written ls |}).
Proof. intros Hacc. unfold bind, removeItem. rewrite Hacc. cbn. done. Qed.

Lemma login_state (token : string) (user userId : jsvalue) (p : Provider) :
  accessible (localStorage (browser p)) = true →
  capacity (localStorage (browser p)) = None →
  JSON_stringify user ≠ "" →
  JSON_parse (JSON_stringify user) = Some user →
  user_id user = Some userId → truthy userId = true →
  ∃ p' : Provider,
    login_handleSubmit (Some (token, user)) p
    = (p', [ToastSuccess "Login successful!"; Navigate "/"])
    ∧ accessible (localStorage (browser p')) = true
    ∧ capacity (localStorage (browser p')) = None
    ∧ storage_key (localStorage (browser p')) = "cart_user_" +:+ to_string userId
    ∧ storageKeyRef p' = "cart_user_" +:+ to_string userId
    ∧ entries (localStorage (browser p')) !! "token" = Some token
    ∧ entries (localStorage (browser p')) !! "user" = Some (JSON_stringify user)
    ∧ cartItems (browser p')
      = match present (entries (localStorage (browser p))
                         !! ("cart_user_" +:+ to_string userId)) with
        | Some text => default (JArr []) (JSON_parse text)
        | None =>
            match present (entries (localStorage (browser p)) !! "cart") with
            | Some text => default (JArr []) (JSON_parse text)
            | None => JArr []
            end
        end
    ∧ ∀ key : string,
        key ≠ "cart_user_" +:+ to_string userId → key ≠ "cart" →
        key ≠ "user" → key ≠ "token" →
        entries (localStorage (browser p')) !! key
        = entries (localStorage (browser p)) !! key.
Proof.
  intros Hacc Hcap Hnonempty Hround Hid Htruthy.
  set (ls := localStorage (browser p)) in *.
  set (ls2 := {| entries := <["user" := JSON_stringify user]>
                              (<["token" := token]> (entries ls));
                 accessible := true;
                 capacity := None;
                 written := ("user", JSON_stringify user) :: ("token", token)
                            :: written ls |}).
  set (p2 := {| browser := {| cartItems := cartItems (browser p); localStorage := ls2 |};
                storageKeyRef := storageKeyRef p |}).
  assert (storage_key ls2 = "cart_user_" +:+ to_string userId) as Hkey.
  { apply (storage_key_logged_in ls2 (JSON_stringify user) user); try done.
    cbn [entries ls2]. apply lookup_insert_eq. }
  destruct (reload_frame p2) as (Href & Hacc' & Hcap' & Hkey' & Hother).
  cbn [p2 browser localStorage] in Href, Hacc', Hcap', Hkey', Hother.
  rewrite Hkey in Href, Hkey', Hother.
  exists (reload p2). split.
  { unfold login_handleSubmit. fold ls. by rewrite login_writes. }
  split; [done|]. split; [done|]. split; [done|]. split; [done|]. split.
  { rewrite Hother by discriminate. cbn [entries ls2].
    rewrite lookup_insert_ne by done. apply lookup_insert_eq. }
  split.
  { rewrite Hother by discriminate. cbn [entries ls2]. apply lookup_insert_eq. }
  split.
  { rewrite reload_cart by done. cbn [p2 browser localStorage]. rewrite Hkey.
    cbn [entries ls2]. by rewrite !lookup_insert_ne by discriminate. }
  intros key Hne Hne' Huser Htoken. rewrite Hother by done.
  cbn [entries ls2]. by rewrite !lookup_insert_ne.
Qed.

Lemma logout_state (p : Provider) :
  accessible (localStorage (browser p)) = true →
  capacity (localStorage (browser p)) = None →
  JSON_parse "null" = Some JNull →
  ∃ p' : Provider,
    handleLogout p = Some (p', [Navigate "/login"])
    ∧ accessible (localStorage (browser p')) = true
    ∧ capacity (localStorage (browser p')) = None
    ∧ storage_key (localStorage (browser p')) = "cart_guest"
    ∧ storageKeyRef p' = "cart_guest"
    ∧ entries (localStorage (browser p')) !! "user" = None
    ∧ entries (localStorage (browser p')) !! "token" = None
    ∧ cartItems (browser p')
      = match present (entries (localStorage (browser p)) !! "cart_guest") with
        | Some text => default (JArr []) (JSON_parse text)
        | None =>
            match present (entries (localStorage (browser p)) !! "cart") with
            | Some text => default (JArr []) (JSON_parse text)
            | None => JArr []
            end
        end
    ∧ ∀ key : string,
        key ≠ "cart_guest" → key ≠ "cart" → key ≠ "user" → key ≠ "token" →
        entries (localStorage (browser p')) !! key
        = entries (localStorage (browser p)) !! key.
Proof.
  intros Hacc Hcap Hnull.
  set (ls := localStorage (browser p)) in *.
  set (ls2 := {| entries := delete "token" (delete "user" (entries ls));
                 accessible := true;
                 capacity := capacity ls;
                 written := written ls |}).
  set (p2 := {| browser := {| cartItems := cartItems (browser p); localStorage := ls2 |};
                storageKeyRef := storageKeyRef p |}).
  assert (storage_key ls2 = "cart_guest") as Hkey.
  { apply storage_key_nobody; [done|]. cbn [entries ls2].
    by rewrite lookup_delete_ne, lookup_delete_eq. }
  destruct (reload_frame p2) as (Href & Hacc' & Hcap' & Hkey' & Hother).
  cbn [p2 browser localStorage] in Href, Hacc', Hcap', Hkey', Hother.
  rewrite Hkey in Href, Hkey', Hother.
  exists (reload p2). split.
  { unfold handleLogout. fold ls. by rewrite logout_removes. }
  split; [done|]. split; [by rewrite Hcap'|]. split; [done|]. split; [done|]. split.
  { rewrite Hother by discriminate. cbn [entries ls2].
    by rewrite lookup_delete_ne, lookup_delete_eq. }
  split.
  { rewrite Hother by discriminate. cbn [entries ls2]. apply lookup_delete_eq. }
  split.
  { rewrite reload_cart by done. cbn [p2 browser localStorage]. rewrite Hkey.
    cbn [entries ls2]. by rewrite !lookup_delete_ne by discriminate. }
  intros key Hne Hne' Huser Htoken. rewrite Hother by done.
  cbn [entries ls2]. by rewrite !lookup_delete_ne.
Qed.

Lemma user_key_not_guest (suffix : string) :
  "cart_user_" +:+ suffix ≠ "cart_guest" ∧ "cart_user_" +:+ suffix ≠ "cart"
  ∧ "cart_user_" +:+ suffix ≠ "user" ∧ "cart_user_" +:+ suffix ≠ "token".
Proof. repeat split; discriminate. Qed.

Lemma reload_direct (p : Provider) (text : string) :
  accessible (localStorage (browser p)) = true →
  present (entries (localStorage (browser p))
             !! storage_key (localStorage (browser p))) = Some text →
  cartItems (browser (reload p)) = default (JArr []) (JSON_parse text).
Proof.
  intros Hacc Hkey. unfold reload.
  by rewrite (loadCartFromStorage_direct (localStorage (browser p)) text).
Qed.

(** X10. A successful login, on a storage that takes the writes and
    with a user record that [JSON.parse] reads back with a truthy id:
    the token and the user are stored, the key becomes [cart_user_]
    followed by the id, and the cart becomes the one saved for that
    user; with none saved and no legacy cart it is empty. The guest's
    saved cart is neither merged nor removed. *)
Theorem login_loads_the_users_cart (token : string) (user userId : jsvalue)
    (p : Provider) :
  accessible (localStorage (browser p)) = true →
  capacity (localStorage (browser p)) = None →
  JSON_stringify user ≠ "" →
  JSON_parse (JSON_stringify user) = Some user →
  user_id user = Some userId → truthy userId = true →
  snd (login_handleSubmit (Some (token, user)) p)
  = [ToastSuccess "Login successful!"; Navigate "/"]
  ∧ storage_key (localStorage (browser (fst (login_handleSubmit (Some (token, user)) p))))
    = "cart_user_" +:+ to_string userId
  ∧ (∀ text : string,
       present (entries (localStorage (browser p))
                  !! ("cart_user_" +:+ to_string userId)) = Some text →
       cartItems (browser (fst (login_handleSubmit (Some (token, user)) p)))
       = default (JArr []) (JSON_parse text))
  ∧ (present (entries (localStorage (browser p))
                !! ("cart_user_" +:+ to_string userId)) = None →
     present (entries (localStorage (browser p)) !! "cart") = None →
     cartItems (browser (fst (login_handleSubmit (Some (token, user)) p))) = JArr [])
  ∧ entries (localStorage (browser (fst (login_handleSubmit (Some (token, user)) p))))
      !! "cart_guest"
    = entries (localStorage (browser p)) !! "cart_guest".
Proof.
  intros Hacc Hcap Hnonempty Hround Hid Htruthy.
  destruct (login_state token user userId p Hacc Hcap Hnonempty Hround Hid Htruthy)
    as (p' & -> & _ & _ & Hkey & _ & _ & _ & Hcart & Hother).
  cbn [fst snd]. split; [done|]. split; [done|]. split; [|split].
  - intros text Hsaved. by rewrite Hcart, Hsaved.
  - intros Hnone Hlegacy. by rewrite Hcart, Hnone, Hlegacy.
  - apply Hother; discriminate.
Qed.

(** X11. Logout. When the storage throws, [handleLogout] throws, as it
    has no [try]. Otherwise the user and the token are removed, the key
    becomes [cart_guest], the cart becomes the guest's saved cart, and
    the cart saved for any user stays in the storage. *)
Theorem logout_returns_to_guest_cart (p : Provider) :
  (accessible (localStorage (browser p)) = false → handleLogout p = None)
  ∧ (accessible (localStorage (browser p)) = true →
     capacity (localStorage (browser p)) = None →
     JSON_parse "null" = Some JNull →
     ∃ p' : Provider,
       handleLogout p = Some (p', [Navigate "/login"])
       ∧ storage_key (localStorage (browser p')) = "cart_guest"
       ∧ entries (localStorage (browser p')) !! "user" = None
       ∧ entries (localStorage (browser p')) !! "token" = None
       ∧ (∀ text : string,
            present (entries (localStorage (browser p)) !! "cart_guest") = Some text →
            cartItems (browser p') = default (JArr []) (JSON_parse text))
       ∧ ∀ suffix : string,
           entries (localStorage (browser p')) !! ("cart_user_" +:+ suffix)
           = entries (localStorage (browser p)) !! ("cart_user_" +:+ suffix)).
Proof.
  split.
  - intros Hacc. unfold handleLogout, bind, removeItem. by rewrite Hacc.
  - intros Hacc Hcap Hnull.
    destruct (logout_state p Hacc Hcap Hnull)
      as (p' & Hout & _ & _ & Hkey & _ & Huser & Htoken & Hcart & Hother).
    exists p'. split; [done|]. split; [done|]. split; [done|]. split; [done|].
    split.
    + intros text Hsaved. by rewrite Hcart, Hsaved.
    + intros suffix. apply Hother; discriminate.
Qed.

(** X12. A guest's saved cart survives a login followed by a logout: on
    a storage that takes the writes, after logging in (as a user whose
    record is read back with a truthy id) and out again, the cart is the
    one that was saved under [cart_guest] before. *)
Theorem guest_cart_survives_login_logout (token guest_text : string)
    (user userId : jsvalue) (p : Provider) :
  accessible (localStorage (browser p)) = true →
  capacity (localStorage (browser p)) = None →
  JSON_parse "null" = Some JNull →
  JSON_stringify user ≠ "" →
  JSON_parse (JSON_stringify user) = Some user →
  user_id user = Some userId → truthy userId = true →
  present (entries (localStorage (browser p)) !! "cart_guest") = Some guest_text →
  ∃ p' : Provider,
    handleLogout (fst (login_handleSubmit (Some (token, user)) p))
    = Some (p', [Navigate "/login"])
    ∧ cartItems (browser p') = default (JArr []) (JSON_parse guest_text)
    ∧ storage_key (localStorage (browser p')) = "cart_guest".
Proof.
  intros Hacc Hcap Hnull Hnonempty Hround Hid Htruthy Hguest.
  destruct (login_state token user userId p Hacc Hcap Hnonempty Hround Hid Htruthy)
    as (p1 & -> & Hacc1 & Hcap1 & _ & _ & _ & _ & _ & Hother).
  cbn [fst].
  destruct (logout_state p1 Hacc1 Hcap1 Hnull)
    as (p2 & Hout & _ & _ & Hkey & _ & _ & _ & Hcart & _).
  exists p2. split; [done|]. split; [|done].
  rewrite Hcart, Hother, Hguest by discriminate. done.
Qed.

(** X13. Another browser context saves a cart under the key this
    provider listens to: the provider drops its own state and takes the
    text the other context wrote. A write under a key that is neither
    that key nor [cart] leaves the state and the noted key alone. *)
Theorem storage_event_takes_the_other_cart (text : string) (p : Provider) :
  accessible (localStorage (browser p)) = true →
  storageKeyRef p = storage_key (localStorage (browser p)) →
  text ≠ "" →
  cartItems (browser (other_context_stores (storageKeyRef p) text p))
  = default (JArr []) (JSON_parse text)
  ∧ ∀ key value : string, key ≠ storageKeyRef p → key ≠ "cart" →
      cartItems (browser (other_context_stores key value p)) = cartItems (browser p)
      ∧ storageKeyRef (other_context_stores key value p) = storageKeyRef p.
Proof.
  intros Hacc Href Hnonempty. split.
  - unfold other_context_stores, onStorage. cbn [storageKeyRef].
    rewrite decide_True by (by left).
    destruct (storage_key_not_reserved (localStorage (browser p))) as [Huser _].
    apply reload_direct; cbn [browser localStorage accessible entries]; [done|].
    rewrite (storage_key_ext (localStorage (browser p))); cbn [accessible entries].
    + rewrite Href, lookup_insert_eq. by destruct text.
    + done.
    + rewrite lookup_insert_ne; [done|]. by rewrite Href.
  - intros key value Hne Hne'. unfold other_context_stores, onStorage.
    cbn [storageKeyRef]. rewrite decide_False; [done|].
    intros [Heq|Heq]; congruence.
Qed.

(** X14. A login made in another browser context goes unnoticed: the
    storage event for [user] is not one this provider reloads on, so it
    keeps its cart and the key it noted; but the saving effect computes
    the key anew, so the next change saves this cart under the other
    user's key. *)
Theorem login_elsewhere_is_not_noticed (text : string) (user userId : jsvalue)
    (lines : list CartLine) (c : call) (calls : list call) (p : Provider) :
  accessible (localStorage (browser p)) = true →
  capacity (localStorage (browser p)) = None →
  storageKeyRef p = storage_key (localStorage (browser p)) →
  cartItems (browser p) = JArr (map Line lines) →
  text ≠ "" → JSON_parse text = Some user →
  user_id user = Some userId → truthy userId = true →
  cartItems (browser (other_context_stores "user" text p)) = JArr (map Line lines)
  ∧ storageKeyRef (other_context_stores "user" text p) = storageKeyRef p
  ∧ ∃ p' : Provider,
      provider_event (c :: calls) (other_context_stores "user" text p) = Some p'
      ∧ cartItems (browser p') = JArr (map Line (perform_all (c :: calls) lines))
      ∧ entries (localStorage (browser p')) !! ("cart_user_" +:+ to_string userId)
        = Some (JSON_stringify (JArr (map Line (perform_all (c :: calls) lines)))).
Proof.
  intros Hacc Hcap Href Hstate Hnonempty Hparse Hid Htruthy.
  destruct (storage_key_not_reserved (localStorage (browser p))) as [Huser Hcart].
  assert (other_context_stores "user" text p
          = {| browser :=
                 {| cartItems := cartItems (browser p);
                    localStorage :=
                      {| entries := <["user":=text]> (entries (localStorage (browser p)));
                         accessible := accessible (localStorage (browser p));
                         capacity := capacity (localStorage (browser p));
                         written := written (localStorage (browser p)) |} |};
               storageKeyRef := storageKeyRef p |}) as ->.
  { unfold other_context_stores, onStorage. cbn [storageKeyRef].
    rewrite decide_False; [done|]. intros [Heq|Heq]; [|discriminate Heq].
    injection Heq as Heq. congruence. }
  cbn [browser cartItems storageKeyRef]. split; [done|]. split; [done|].
  set (ls' := {| entries := <["user":=text]> (entries (localStorage (browser p)));
                 accessible := accessible (localStorage (browser p));
                 capacity := capacity (localStorage (browser p));
                 written := written (localStorage (browser p)) |}).
  assert (storage_key ls' = "cart_user_" +:+ to_string userId) as Hkey.
  { apply (storage_key_logged_in ls' text user); try done.
    cbn [entries ls']. apply lookup_insert_eq. }
  assert (accepts ls' (storage_key ls')
            (JSON_stringify (JArr (map Line (perform_all (c :: calls) lines)))) = true)
    as Haccepts.
  { unfold accepts. cbn [accessible capacity ls']. by rewrite Hacc, Hcap. }
  unfold provider_event. cbn [browser storageKeyRef]. rewrite Hstate.
  rewrite handle_event_array by done. cbn [fmap option_fmap option_map].
  eexists. split; [reflexivity|]. cbn [browser cartItems localStorage].
  split; [done|]. rewrite persist_accepted by done. cbn [snd entries].
  rewrite Hkey. apply lookup_insert_eq.
Qed.

(** X15. A login that cannot store what it received reports a failure
    and does not reload the cart: when the token is refused nothing
    changes; when the token is stored and the user record is refused,
    the token stays stored, the [user] entry, the state and the noted
    key are as before. *)
Theorem login_that_cannot_store (token : string) (user : jsvalue) (p : Provider) :
  (accepts (localStorage (browser p)) "token" token = false →
   snd (login_handleSubmit (Some (token, user)) p)
   = [ToastError "Login failed. Please check your credentials."]
   ∧ browser (fst (login_handleSubmit (Some (token, user)) p)) = browser p
   ∧ storageKeyRef (fst (login_handleSubmit (Some (token, user)) p)) = storageKeyRef p)
  ∧ (accepts (localStorage (browser p)) "token" token = true →
     accepts (snd (setItem "token" token (localStorage (browser p)))) "user"
       (JSON_stringify user) = false →
     snd (login_handleSubmit (Some (token, user)) p)
     = [ToastError "Login failed. Please check your credentials."]
     ∧ cartItems (browser (fst (login_handleSubmit (Some (token, user)) p)))
       = cartItems (browser p)
     ∧ storageKeyRef (fst (login_handleSubmit (Some (token, user)) p)) = storageKeyRef p
     ∧ entries (localStorage (browser (fst (login_handleSubmit (Some (token, user)) p))))
         !! "token" = Some token
     ∧ entries (localStorage (browser (fst (login_handleSubmit (Some (token, user)) p))))
         !! "user" = entries (localStorage (browser p)) !! "user").
Proof.
  split.
  - intros Hrefused. unfold login_handleSubmit, bind.
    destruct (setItem_cases "token" token (localStorage (browser p)))
      as [[Hacc _]|[_ ->]]; [congruence|].
    cbn [fst snd browser storageKeyRef]. split; [done|]. split; [|done].
    by destruct (browser p).
  - intros Haccepted Hrefused. unfold login_handleSubmit, bind.
    destruct (setItem_cases "token" token (localStorage (browser p)))
      as [[_ Htoken]|[Hacc _]]; [|congruence].
    rewrite Htoken in Hrefused |- *. cbn [snd] in Hrefused.
    destruct (setItem_cases "user" (JSON_stringify user)
                {| entries := <["token":=token]> (entries (localStorage (browser p)));
                   accessible := accessible (localStorage (browser p));
                   capacity := capacity (localStorage (browser p));
                   written := ("token", token) :: written (localStorage (browser p)) |})
      as [[Hacc _]|[_ ->]]; [congruence|].
    cbn [fst snd browser storageKeyRef cartItems localStorage entries].
    split; [done|]. split; [done|]. split; [done|]. split.
    + apply lookup_insert_eq.
    + by rewrite lookup_insert_ne.
Qed.

(** X16. Switching identity and back: on a storage that takes the
    writes, after a login as a second user (whose key differs) and a
    login as the first user again, the cart is the one that was saved
    under the first user's key, which the time spent as the second user
    has not changed. *)
Theorem identity_switch_and_back (token1 token2 saved : string)
    (user1 userId1 user2 userId2 : jsvalue) (p : Provider) :
  accessible (localStorage (browser p)) = true →
  capacity (localStorage (browser p)) = None →
  JSON_stringify user1 ≠ "" → JSON_parse (JSON_stringify user1) = Some user1 →
  user_id user1 = Some userId1 → truthy userId1 = true →
  JSON_stringify user2 ≠ "" → JSON_parse (JSON_stringify user2) = Some user2 →
  user_id user2 = Some userId2 → truthy userId2 = true →
  to_string userId1 ≠ to_string userId2 →
  present (entries (localStorage (browser p)) !! ("cart_user_" +:+ to_string userId1))
  = Some saved →
  entries (localStorage (browser (fst (login_handleSubmit (Some (token2, user2)) p))))
    !! ("cart_user_" +:+ to_string userId1)
  = entries (localStorage (browser p)) !! ("cart_user_" +:+ to_string userId1)
  ∧ cartItems
      (browser (fst (login_handleSubmit (Some (token1, user1))
                       (fst (login_handleSubmit (Some (token2, user2)) p)))))
    = default (JArr []) (JSON_parse saved).
Proof.
  intros Hacc Hcap Hne1 Hround1 Hid1 Htruthy1 Hne2 Hround2 Hid2 Htruthy2
    Hdistinct Hsaved.
  destruct (login_state token2 user2 userId2 p Hacc Hcap Hne2 Hround2 Hid2 Htruthy2)
    as (p2 & -> & Hacc2 & Hcap2 & _ & _ & _ & _ & _ & Hother).
  cbn [fst].
  assert (entries (localStorage (browser p2)) !! ("cart_user_" +:+ to_string userId1)
          = entries (localStorage (browser p)) !! ("cart_user_" +:+ to_string userId1))
    as Hkept.
  { apply Hother; try discriminate.
    intros Heq. apply Hdistinct. cbn in Heq. by simplify_eq. }
  split; [done|].
  destruct (login_state token1 user1 userId1 p2 Hacc2 Hcap2 Hne1 Hround1 Hid1 Htruthy1)
    as (p1 & -> & _ & _ & _ & _ & _ & _ & Hcart & _).
  cbn [fst]. by rewrite Hcart, Hkept, Hsaved.
Qed.

Lemma mount_saves (mode : build) (ls : Storage) :
  accessible ls = true → capacity ls = None →
  entries (localStorage (mount mode ls)) !! storage_key ls
  = Some (JSON_stringify (cartItems (mount mode ls))).
Proof.
  intros Hacc Hcap.
  assert (∀ (v : jsvalue) (ls0 : Storage),
            accessible ls0 = true → capacity ls0 = None →
            entries (snd (persist v ls0)) !! storage_key ls0 = Some (JSON_stringify v))
    as Hsaves.
  { intros v ls0 Hacc0 Hcap0.
    rewrite persist_accepted by (unfold accepts; by rewrite Hacc0, Hcap0).
    cbn [snd entries]. apply lookup_insert_eq. }
  destruct (loadCartFromStorage_frame ls) as (Hacc1 & Hcap1 & Hkey1 & _).
  unfold mount. destruct (loadCartFromStorage ls) as [loaded ls1].
  cbn [snd] in *.
  destruct (persist_keeps (JArr []) ls1) as (Hacc2 & Hcap2 & Hkey2 & _).
  destruct mode.
  - cbn [cartItems localStorage]. rewrite <- Hkey1, <- Hkey2.
    apply Hsaves; congruence.
  - destruct (loadCartFromStorage_frame (snd (persist (JArr []) ls1)))
      as (Hacc3 & Hcap3 & Hkey3 & _).
    destruct (loadCartFromStorage (snd (persist (JArr []) ls1))) as [reloaded ls3].
    cbn [snd] in *. cbn [cartItems localStorage].
    destruct (persist_keeps (JArr []) ls3) as (Hacc4 & Hcap4 & Hkey4 & _).
    rewrite <- Hkey1, <- Hkey2, <- Hkey3, <- Hkey4.
    apply Hsaves; congruence.
Qed.

(** X17. Refreshing the page. In a production build it keeps the cart:
    on a storage that takes the writes, mounting the provider from the
    storage a mounted provider leaves gives the same cart and the same
    saved text, provided [JSON.parse] reads back what [JSON.stringify]
    wrote for it. In a development build, where the effects run twice,
    every mount on such a storage starts with the empty cart and saves
    the empty array, whatever the storage held: a refresh empties the
    cart. *)
Theorem refresh_keeps_the_cart (ls : Storage) :
  accessible ls = true → capacity ls = None →
  (JSON_stringify (cartItems (mount Production ls)) ≠ "" →
   JSON_parse (JSON_stringify (cartItems (mount Production ls)))
   = Some (cartItems (mount Production ls)) →
   cartItems (mount Production (localStorage (mount Production ls)))
   = cartItems (mount Production ls)
   ∧ entries (localStorage (mount Production (localStorage (mount Production ls))))
       !! storage_key ls
     = entries (localStorage (mount Production ls)) !! storage_key ls)
  ∧ (JSON_stringify (JArr []) = "[]" → JSON_parse "[]" = Some (JArr []) →
     cartItems (mount Development ls) = JArr []
     ∧ entries (localStorage (mount Development ls)) !! storage_key ls = Some "[]"
     ∧ cartItems (mount Development (localStorage (mount Production ls))) = JArr []).
Proof.
  intros Hacc Hcap.
  destruct (mount_frame Production ls) as (Hacc' & Hcap' & Hkey' & _).
  pose proof (mount_saves Production ls Hacc Hcap) as Hsaved.
  split.
  - intros Hnonempty Hround.
    assert (cartItems (mount Production (localStorage (mount Production ls)))
            = cartItems (mount Production ls)) as Hsame.
    { rewrite (mount_production (localStorage (mount Production ls))).
      rewrite (loadCartFromStorage_direct (localStorage (mount Production ls))
                 (JSON_stringify (cartItems (mount Production ls)))).
      - by rewrite Hround.
      - congruence.
      - rewrite Hkey', Hsaved.
        by destruct (JSON_stringify (cartItems (mount Production ls))). }
    split; [done|].
    rewrite <- Hkey' at 1. rewrite mount_saves by congruence.
    by rewrite Hsame, Hsaved.
  - intros Hstringify Hparse.
    destruct (mount_development_empty ls Hacc Hcap Hstringify Hparse) as [Hstate Hentry].
    split; [done|]. split; [done|].
    apply mount_development_empty; congruence.
Qed.

End Store.

(** ** Instances of the statements above on the sample data *)

Lemma addToCart_increments_or_appends_witness :
  (length (addToCart productA' [mkLine productA 2; mkLine productB 1]) = 2%nat
   ∧ addToCart productA' [mkLine productA 2; mkLine productB 1] !! 0%nat
     = Some (mkLine productA 3)
   ∧ addToCart productA' [mkLine productA 2; mkLine productB 1] !! 1%nat
     = Some (mkLine productB 1))
  ∧ addToCart productA [mkLine productB 1] = [mkLine productB 1; mkLine productA 1]
  ∧ lines_for (IdNum 1) (addAll [productA; productA'; productA] [mkLine productB 1])
    = [mkLine productA 3].
Proof.
  destruct (addToCart_increments_or_appends productA'
              [mkLine productA 2; mkLine productB 1]) as (Hpresent & _ & _).
  destruct (addToCart_increments_or_appends productA [mkLine productB 1])
    as (_ & Habsent & Hcalls).
  assert (has_line (id productA') [mkLine productA 2; mkLine productB 1]) as Hhas
    by by_evaluation.
  assert (¬ has_line (id productA) [mkLine productB 1]) as Hno by by_evaluation.
  destruct (Hpresent Hhas) as [Hlen Hlines].
  split; [split; [exact Hlen|split]|split].
  - exact (Hlines 0%nat (mkLine productA 2) eq_refl).
  - exact (Hlines 1%nat (mkLine productB 1) eq_refl).
  - exact (Habsent Hno).
  - apply (Hcalls Hno [productA'; productA]).
    repeat constructor.
Defined.

Lemma updateQuantity_cases_witness :
  updateQuantity (IdNum 1) 0 [mkLine productA 2; mkLine productB 1]
  = removeFromCart (IdNum 1) [mkLine productA 2; mkLine productB 1]
  ∧ updateQuantity (IdNum 1) 5 [mkLine productA 2; mkLine productB 1] !! 0%nat
    = Some (mkLine productA 5)
  ∧ updateQuantity (IdNum 1) 5 [mkLine productB 1] = [mkLine productB 1].
Proof.
  destruct (updateQuantity_cases (IdNum 1) 0 [mkLine productA 2; mkLine productB 1])
    as (Hremove & _ & _).
  destruct (updateQuantity_cases (IdNum 1) 5 [mkLine productA 2; mkLine productB 1])
    as (_ & Hset & _).
  destruct (updateQuantity_cases (IdNum 1) 5 [mkLine productB 1]) as (_ & _ & Hnoop).
  split; [|split].
  - apply Hremove. lia.
  - destruct Hset as [_ Hlines]; [lia|].
    exact (Hlines 0%nat (mkLine productA 2) eq_refl).
  - apply Hnoop; [lia | by_evaluation].
Defined.

(** Two units at 10 and three at 2.5: five items, 27.5 in all. *)
Lemma cart_totals_witness :
  getCartItemsCount [mkLine productA 2; mkLine productB 3] = 5%Z
  ∧ getCartTotal [mkLine productA 2; mkLine productB 3] = 27.5%float
  ∧ getCartTotal ([mkLine productA 2] ++ [mkLine productB 3])
    = (getCartTotal [mkLine productA 2] + 2.5 * as_double 3)%float
  ∧ (0 ≤ getCartItemsCount [mkLine productA 2; mkLine productB 3])%Z
  ∧ (0 <=? getCartTotal [mkLine productA 2; mkLine productB 3])%float = true.
Proof.
  destruct (cart_totals [mkLine productA 2; mkLine productB 3])
    as (Hcount & Htotal & _ & Hcount_nonneg & Htotal_nonneg).
  destruct (cart_totals [mkLine productA 2]) as (_ & _ & Hsnoc & _ & _).
  split; [rewrite Hcount; reflexivity|].
  split; [rewrite Htotal; reflexivity|].
  split; [exact (Hsnoc (mkLine productB 3))|]. split.
  - apply Hcount_nonneg. repeat constructor; cbn; lia.
  - apply Htotal_nonneg. repeat constructor; cbn; lia.
Defined.

Lemma addToCart_existing_frame_witness :
  length (addToCart productA' [mkLine productA 2; mkLine productB 1]) = 2%nat
  ∧ addToCart productA' [mkLine productA 2; mkLine productB 1]
    = addToCart productA [mkLine productA 2; mkLine productB 1].
Proof.
  destruct (addToCart_existing_frame productA' [mkLine productA 2; mkLine productB 1])
    as (Hlen & _ & Hsame).
  - by_evaluation.
  - split; [exact Hlen|]. symmetry. by apply Hsame.
Defined.

(** The checkout of a cart with one line: the order succeeds and the
    cart is cleared; the order fails and the cart stays. *)
Lemma checkout_clears_iff_created_witness :
  CallClearCart
    ∈ handleSubmit sample_form
        [mkLine productA 2] (λ _, Resolved)
  ∧ perform_all
      (store_calls
         (handleSubmit sample_form
            [mkLine productA 2] (λ _, Resolved)))
      [mkLine productA 2] = []
  ∧ perform_all
      (store_calls
         (handleSubmit sample_form
            [mkLine productA 2] (λ _, Rejected)))
      [mkLine productA 2] = [mkLine productA 2].
Proof.
  destruct (checkout_clears_iff_created
              sample_form
              [mkLine productA 2] (λ _, Resolved) [mkLine productA 2])
    as (Hiff & Hcleared & _).
  destruct (checkout_clears_iff_created
              sample_form
              [mkLine productA 2] (λ _, Rejected) [mkLine productA 2])
    as (_ & _ & Hkept).
  assert (order_created (λ _, Resolved)
            (handleSubmit sample_form
               [mkLine productA 2] (λ _, Resolved))) as Hcreated.
  { eexists. split; [apply elem_of_cons; left; reflexivity | reflexivity]. }
  split; [|split].
  - apply Hiff, Hcreated.
  - apply Hcleared, Hcreated.
  - apply Hkept. intros (order & _ & Hreply). discriminate Hreply.
Defined.



(** Four events on a fresh guest cart, one of them without a call and
    one with two: three writes, the last one of the final cart. On a
    storage that cannot be accessed the same events lead to the same
    cart and write nothing. *)
Lemma one_write_per_event_witness :
  (∃ b' : Browser,
     run_events sample_parse sample_stringify
       [[AddToCart productA]; handleAddToCart productB 2; [];
        [UpdateQuantity (IdNum 1) 0]]
       (mount sample_parse sample_stringify Production (storage_of ∅)) = Some b'
     ∧ cartItems b' = JArr [Line (mkLine productB 2)]
     ∧ writes_between (mount sample_parse sample_stringify Production (storage_of ∅)) b'
       = 3%nat
     ∧ entries (localStorage b') !! "cart_guest"
       = Some (sample_stringify (JArr [Line (mkLine productB 2)])))
  ∧ ∃ b' : Browser,
      run_events sample_parse sample_stringify
        [[AddToCart productA]; handleAddToCart productB 2; [];
         [UpdateQuantity (IdNum 1) 0]]
        (mkBrowser (JArr []) (disabled_storage ∅)) = Some b'
      ∧ cartItems b' = JArr [Line (mkLine productB 2)]
      ∧ localStorage b' = disabled_storage ∅.
Proof.
  split.
  - destruct (one_write_per_event sample_parse sample_stringify
                [[AddToCart productA]; handleAddToCart productB 2; [];
                 [UpdateQuantity (IdNum 1) 0]]
                (mount sample_parse sample_stringify Production (storage_of ∅)) [])
      as (b' & Hrun & Hstate & _ & _ & _ & _ & Haccepting); [reflexivity|].
    destruct (Haccepting eq_refl eq_refl) as (_ & Hwrites & Hentries).
    exists b'. split; [exact Hrun|]. split; [exact Hstate|].
    split; [exact Hwrites|].
    rewrite Hstate in Hentries. apply Hentries. discriminate.
  - destruct (one_write_per_event sample_parse sample_stringify
                [[AddToCart productA]; handleAddToCart productB 2; [];
                 [UpdateQuantity (IdNum 1) 0]]
                (mkBrowser (JArr []) (disabled_storage ∅)) [])
      as (b' & Hrun & Hstate & _ & Hdisabled & _); [reflexivity|].
    exists b'. split; [exact Hrun|]. split; [exact Hstate|].
    apply Hdisabled. reflexivity.
Defined.

(** A stored user with id 7, and no stored user. *)
Lemma storage_key_of_identity_witness :
  getStorageKey sample_parse (storage_of {[ "user" := text_user7 ]})
  = (Some "cart_user_7", storage_of {[ "user" := text_user7 ]})
  ∧ getStorageKey sample_parse (storage_of ∅) = (Some "cart_guest", storage_of ∅)
  ∧ getStorageKey sample_parse (storage_of {[ "user" := text_user0 ]})
    = (Some "cart_guest", storage_of {[ "user" := text_user0 ]}).
Proof.
  destruct (storage_key_of_identity sample_parse sample_stringify
              (storage_of {[ "user" := text_user7 ]})) as (Hlogged & _).
  destruct (storage_key_of_identity sample_parse sample_stringify (storage_of ∅))
    as (_ & _ & Hnobody & _).
  destruct (storage_key_of_identity sample_parse sample_stringify
              (storage_of {[ "user" := text_user0 ]})) as (_ & _ & _ & Hfalsy & _).
  split; [|split].
  - apply (Hlogged text_user7 (JObj {[ "id" := JNum 7 ]}) (JNum 7));
      try reflexivity.
    vm_compute. discriminate.
  - apply Hnobody; reflexivity.
  - apply (Hfalsy text_user0); [reflexivity|].
    right. exists (JObj {[ "id" := JNum 0 ]}). split; [reflexivity|].
    right. exists (JNum 0). split; reflexivity.
Defined.

(** ** Where the specification's wording fails *)

(** C4, as stated, fails. One unit at 0.1 and one at 0.2 (the doubles
    nearest to them): the total is 0.30000000000000004, which is not the
    sum of the two prices without rounding. And the total depends on the
    order of the lines, which a sum does not: 0.1, 0.2, 0.3 and 0.3,
    0.2, 0.1 give different totals. *)
Lemma cart_totals_counterexample :
  getCartTotal [mkLine productC 1; mkLine productD 1] = 0.30000000000000004%float
  ∧ ¬ (exact_value (getCartTotal [mkLine productC 1; mkLine productD 1])
       == sum_price_times_quantity [mkLine productC 1; mkLine productD 1])%Q
  ∧ (getCartTotal [mkLine productC 1; mkLine productD 1; mkLine productE 1]
     =? getCartTotal [mkLine productE 1; mkLine productD 1; mkLine productC 1])%float
    = false
  ∧ (sum_price_times_quantity [mkLine productC 1; mkLine productD 1; mkLine productE 1]
     == sum_price_times_quantity [mkLine productE 1; mkLine productD 1; mkLine productC 1])%Q.
Proof.
  split; [vm_compute; reflexivity|]. split; [|split].
  - intros Heq. apply Qeq_bool_iff in Heq. vm_compute in Heq. discriminate Heq.
  - vm_compute. reflexivity.
  - apply Qeq_bool_iff. vm_compute. reflexivity.
Qed.



(** C8, as stated, fails. The product page adds three units with three
    [addToCart] calls in one click; the cart is written once, not three
    times. *)
Lemma one_write_per_call_counterexample :
  length (handleAddToCart productA 3) = 3%nat
  ∧ ∃ after : Browser,
      handle_event sample_parse sample_stringify (handleAddToCart productA 3)
        (mount sample_parse sample_stringify Production (storage_of ∅)) = Some after
      ∧ cartItems after = JArr [Line (mkLine productA 3)]
      ∧ writes_between
          (mount sample_parse sample_stringify Production (storage_of ∅)) after = 1%nat
      ∧ writes_between
          (mount sample_parse sample_stringify Production (storage_of ∅)) after
        ≠ length (handleAddToCart productA 3).
Proof.
  split; [reflexivity|].
  eexists. split; [vm_compute; reflexivity|].
  split; [reflexivity|]. split; [reflexivity|].
  vm_compute. discriminate.
Qed.

(** C9, as stated, fails: the keys are [cart_user_7] and [cart_guest],
    not [identity:7] and [guest]. *)
Lemma storage_key_counterexample :
  fst (getStorageKey sample_parse (storage_of {[ "user" := text_user7 ]}))
  = Some "cart_user_7"
  ∧ fst (getStorageKey sample_parse (storage_of {[ "user" := text_user7 ]}))
    ≠ Some "identity:7"
  ∧ fst (getStorageKey sample_parse (storage_of ∅)) = Some "cart_guest"
  ∧ fst (getStorageKey sample_parse (storage_of ∅)) ≠ Some "guest".
Proof.
  split; [|split; [|split]].
  - vm_compute. reflexivity.
  - vm_compute. discriminate.
  - vm_compute. reflexivity.
  - vm_compute. discriminate.
Qed.

(** ** Instances of the further statements *)

(** Adding a product the cart holds at another price: the count goes
    from 3 to 4 and the total from 22.5 to 32.5, by the price of the
    line, 10, not by the descriptor's 12. Adding a product the cart
    does not hold adds its price to the total. *)
Lemma addToCart_totals_witness :
  getCartItemsCount (addToCart productA' [mkLine productA 2; mkLine productB 1]) = 4%Z
  ∧ getCartTotal (addToCart productA' [mkLine productA 2; mkLine productB 1])
    = 32.5%float
  ∧ getCartTotal (addToCart productB [mkLine productA 2]) = 22.5%float.
Proof.
  destruct (addToCart_totals productA' [mkLine productA 2; mkLine productB 1])
    as (Hcount & _ & Hheld & _).
  { by_evaluation. }
  destruct (addToCart_totals productB [mkLine productA 2]) as (_ & Hnew & _).
  { by_evaluation. }
  split; [rewrite Hcount; reflexivity|]. split.
  - rewrite (Hheld [] [mkLine productB 1] (mkLine productA 2) eq_refl eq_refl).
    reflexivity.
  - rewrite Hnew by by_evaluation. reflexivity.
Defined.

(** One product added: a guest sees the badge, an administrator does
    not. *)
Lemma badge_matches_cart_page_witness :
  showsBadge (userRole JNull) (perform_all [AddToCart productA] []) = true
  ∧ showsBadge (userRole (JObj {[ "role" := JStr "ADMIN" ]}))
      (perform_all [AddToCart productA] []) = false.
Proof.
  destruct (badge_matches_cart_page [AddToCart productA] JNull) as (Hguest & _ & _).
  destruct (badge_matches_cart_page [AddToCart productA]
              (JObj {[ "role" := JStr "ADMIN" ]})) as (_ & Hadmin & _).
  split.
  - rewrite Hguest by discriminate. reflexivity.
  - apply Hadmin. reflexivity.
Defined.

Lemma cart_page_buttons_witness :
  perform (plusButton (mkLine productA 2)) [mkLine productA 2; mkLine productB 1]
  = addToCart productA [mkLine productA 2; mkLine productB 1]
  ∧ getCartItemsCount
      (perform (minusButton (mkLine productA 2)) [mkLine productA 2; mkLine productB 1])
    = 2%Z
  ∧ perform (plusButton (mkLine productA 1))
      (perform (minusButton (mkLine productA 2)) [mkLine productA 2; mkLine productB 1])
    = [mkLine productA 2; mkLine productB 1].
Proof.
  destruct (cart_page_buttons (mkLine productA 2) [mkLine productA 2; mkLine productB 1])
    as (Hplus & _ & Hminus & _ & _ & Hback).
  - by_evaluation.
  - apply elem_of_cons. left. reflexivity.
  - split; [exact Hplus|]. split; [rewrite Hminus; reflexivity|].
    apply Hback. reflexivity.
Defined.

(** Minus, plus, plus on the picker: quantity 3; the count goes from 1
    to 4. *)
Lemma product_page_adds_picked_quantity_witness :
  picked [PickerMinus; PickerPlus; PickerPlus] = 3%Z
  ∧ getCartItemsCount
      (perform_all (pageAddToCart productA (picked [PickerMinus; PickerPlus; PickerPlus]))
         [mkLine productB 1]) = 4%Z.
Proof.
  destruct (product_page_adds_picked_quantity [PickerMinus; PickerPlus; PickerPlus]
              productA [mkLine productB 1]) as (_ & _ & Hcount & _).
  - by_evaluation.
  - split; [reflexivity|]. rewrite Hcount. reflexivity.
Defined.

(** A user with a token adds a product as the first event: the [user]
    and [token] entries are as they were. *)
Lemma provider_writes_only_cart_entries_witness :
  ∃ b' : Browser,
    run_events sample_parse sample_stringify [[AddToCart productA]]
      (mount sample_parse sample_stringify Production
         (storage_of {[ "user" := text_user7; "token" := "t" ]})) = Some b'
    ∧ entries (localStorage b') !! "user" = Some text_user7
    ∧ entries (localStorage b') !! "token" = Some "t".
Proof.
  destruct (provider_writes_only_cart_entries sample_parse sample_stringify Production
              (storage_of {[ "user" := text_user7; "token" := "t" ]})
              [[AddToCart productA]]) as [_ Hrun].
  assert (∃ b' : Browser,
            run_events sample_parse sample_stringify [[AddToCart productA]]
              (mount sample_parse sample_stringify Production
                 (storage_of {[ "user" := text_user7; "token" := "t" ]})) = Some b')
    as [b' Hb'] by (eexists; vm_compute; reflexivity).
  destruct (Hrun b' Hb') as (_ & Huser & Htoken & _).
  exists b'. split; [exact Hb'|]. split; [rewrite Huser | rewrite Htoken]; reflexivity.
Defined.

(** The order of a guest's cart succeeds: the cart and the saved cart
    are empty. *)
Lemma checkout_on_provider_witness :
  ∃ b' : Browser,
    handle_event sample_parse sample_stringify
      (store_calls (handleSubmit sample_form [mkLine productA 2] (λ _, Resolved)))
      (mount sample_parse sample_stringify Production (storage_of {[ "cart_guest" := text_cartA2 ]}))
    = Some b'
    ∧ cartItems b' = JArr []
    ∧ entries (localStorage b') !! "cart_guest" = Some "[]".
Proof.
  destruct (checkout_on_provider sample_parse sample_stringify sample_form
              [mkLine productA 2] (λ _, Resolved)
              (mount sample_parse sample_stringify Production
                 (storage_of {[ "cart_guest" := text_cartA2 ]})))
    as [Hcreated _].
  - reflexivity.
  - reflexivity.
  - destruct Hcreated as (b' & Hevent & Hstate & Hsaved & _).
    + eexists. split; [apply elem_of_cons; left; reflexivity | reflexivity].
    + exists b'. split; [exact Hevent|]. split; [exact Hstate|exact Hsaved].
Defined.

(** Two units of a product added on the product page, then the page is
    loaded anew: a production build shows the two units, a development
    build an empty cart. *)
Lemma saved_cart_survives_reload_witness :
  ∃ b' : Browser,
    run_events sample_parse sample_stringify [handleAddToCart productA 2]
      (mount sample_parse sample_stringify Production (storage_of ∅)) = Some b'
    ∧ cartItems b' = JArr [Line (mkLine productA 2)]
    ∧ cartItems (mount sample_parse sample_stringify Production (localStorage b'))
      = cartItems b'
    ∧ cartItems (mount sample_parse sample_stringify Development (localStorage b'))
      = JArr [].
Proof.
  destruct (saved_cart_survives_reload sample_parse sample_stringify
              [handleAddToCart productA 2]
              (mount sample_parse sample_stringify Production (storage_of ∅)) [])
    as (b' & Hrun & Hstate & Hagain & Hdevelopment).
  - reflexivity.
  - reflexivity.
  - reflexivity.
  - discriminate.
  - vm_compute. discriminate.
  - reflexivity.
  - destruct (Hdevelopment eq_refl eq_refl) as [Hlost _].
    exists b'. split; [exact Hrun|]. split; [exact Hstate|].
    split; [exact Hagain|exact Hlost].
Defined.

(** A guest with an empty cart logs in as user 7, who has a saved
    cart. *)
Lemma login_loads_the_users_cart_witness :
  cartItems
    (browser
       (fst (login_handleSubmit sample_parse demo_stringify
               (Some ("t", JObj {[ "id" := JNum 7 ]}))
               (mountProvider sample_parse demo_stringify Production
                  (storage_of {[ "cart_user_7" := text_cartA2; "cart_guest" := "[]" ]})))))
  = JArr [Line (mkLine productA 2)]
  ∧ storage_key sample_parse
      (localStorage
         (browser
            (fst (login_handleSubmit sample_parse demo_stringify
                    (Some ("t", JObj {[ "id" := JNum 7 ]}))
                    (mountProvider sample_parse demo_stringify Production
                       (storage_of {[ "cart_user_7" := text_cartA2;
                                      "cart_guest" := "[]" ]}))))))
    = "cart_user_7".
Proof.
  destruct (login_loads_the_users_cart sample_parse demo_stringify "t"
              (JObj {[ "id" := JNum 7 ]}) (JNum 7)
              (mountProvider sample_parse demo_stringify Production
                 (storage_of {[ "cart_user_7" := text_cartA2; "cart_guest" := "[]" ]})))
    as (_ & Hkey & Hsaved & _ & _).
  - reflexivity.
  - reflexivity.
  - vm_compute. discriminate.
  - reflexivity.
  - reflexivity.
  - reflexivity.
  - split; [|exact Hkey]. apply (Hsaved text_cartA2). reflexivity.
Defined.

(** User 7 logs out; the guest's cart was saved before. *)
Lemma logout_returns_to_guest_cart_witness :
  ∃ p' : Provider,
    handleLogout sample_parse sample_stringify
      (mountProvider sample_parse sample_stringify Production
         (storage_of {[ "user" := text_user7; "cart_guest" := text_cartA2 ]}))
    = Some (p', [Navigate "/login"])
    ∧ cartItems (browser p') = JArr [Line (mkLine productA 2)]
    ∧ entries (localStorage (browser p')) !! "cart_user_7" = Some "[]".
Proof.
  destruct (logout_returns_to_guest_cart sample_parse sample_stringify
              (mountProvider sample_parse sample_stringify Production
                 (storage_of {[ "user" := text_user7; "cart_guest" := text_cartA2 ]})))
    as [_ Hout].
  destruct Hout as (p' & Hlogout & _ & _ & _ & Hcart & Hkept);
    [reflexivity | reflexivity | reflexivity |].
  exists p'. split; [exact Hlogout|]. split.
  - apply (Hcart text_cartA2). reflexivity.
  - refine (eq_trans (Hkept "7") _). reflexivity.
Defined.

(** A guest with a saved cart logs in as user 7 and out again. *)
Lemma guest_cart_survives_login_logout_witness :
  ∃ p' : Provider,
    handleLogout sample_parse demo_stringify
      (fst (login_handleSubmit sample_parse demo_stringify
              (Some ("t", JObj {[ "id" := JNum 7 ]}))
              (mountProvider sample_parse demo_stringify Production
                 (storage_of {[ "cart_guest" := text_cartA2 ]}))))
    = Some (p', [Navigate "/login"])
    ∧ cartItems (browser p') = JArr [Line (mkLine productA 2)].
Proof.
  destruct (guest_cart_survives_login_logout sample_parse demo_stringify "t"
              text_cartA2 (JObj {[ "id" := JNum 7 ]}) (JNum 7)
              (mountProvider sample_parse demo_stringify Production
                 (storage_of {[ "cart_guest" := text_cartA2 ]})))
    as (p' & Hlogout & Hcart & _).
  - reflexivity.
  - reflexivity.
  - reflexivity.
  - vm_compute. discriminate.
  - reflexivity.
  - reflexivity.
  - reflexivity.
  - reflexivity.
  - exists p'. split; [exact Hlogout|exact Hcart].
Defined.

(** Another tab of the same guest saves a cart. *)
Lemma storage_event_takes_the_other_cart_witness :
  cartItems
    (browser
       (other_context_stores sample_parse sample_stringify "cart_guest" text_cartA2
          (mountProvider sample_parse sample_stringify Production (storage_of ∅))))
  = JArr [Line (mkLine productA 2)].
Proof.
  destruct (storage_event_takes_the_other_cart sample_parse sample_stringify
              text_cartA2
              (mountProvider sample_parse sample_stringify Production (storage_of ∅)))
    as [Htaken _].
  - reflexivity.
  - reflexivity.
  - vm_compute. discriminate.
  - exact Htaken.
Defined.

(** A guest holds two units of a product; user 7 logs in in another
    tab; the guest adds a unit: three units are saved as user 7's
    cart. *)
Lemma login_elsewhere_is_not_noticed_witness :
  ∃ p' : Provider,
    provider_event sample_parse sample_stringify [AddToCart productA]
      (other_context_stores sample_parse sample_stringify "user" text_user7
         (mountProvider sample_parse sample_stringify Production
            (storage_of {[ "cart_guest" := text_cartA2 ]})))
    = Some p'
    ∧ entries (localStorage (browser p')) !! "cart_user_7"
      = Some (sample_stringify (JArr [Line (mkLine productA 3)])).
Proof.
  destruct (login_elsewhere_is_not_noticed sample_parse sample_stringify text_user7
              (JObj {[ "id" := JNum 7 ]}) (JNum 7) [mkLine productA 2]
              (AddToCart productA) []
              (mountProvider sample_parse sample_stringify Production
                 (storage_of {[ "cart_guest" := text_cartA2 ]})))
    as (_ & _ & p' & Hevent & _ & Hsaved).
  - reflexivity.
  - reflexivity.
  - reflexivity.
  - reflexivity.
  - vm_compute. discriminate.
  - reflexivity.
  - reflexivity.
  - reflexivity.
  - exists p'. split; [exact Hevent|exact Hsaved].
Defined.

(** A quota of 10 characters holds the token but not the user record. *)
Lemma login_that_cannot_store_witness :
  snd (login_handleSubmit sample_parse demo_stringify
         (Some ("t", JObj {[ "id" := JNum 7 ]}))
         (mountProvider sample_parse demo_stringify Production (storage_with_quota ∅ 10)))
  = [ToastError "Login failed. Please check your credentials."]
  ∧ entries
      (localStorage
         (browser
            (fst (login_handleSubmit sample_parse demo_stringify
                    (Some ("t", JObj {[ "id" := JNum 7 ]}))
                    (mountProvider sample_parse demo_stringify Production
                       (storage_with_quota ∅ 10)))))) !! "token"
    = Some "t".
Proof.
  destruct (login_that_cannot_store sample_parse demo_stringify "t"
              (JObj {[ "id" := JNum 7 ]})
              (mountProvider sample_parse demo_stringify Production (storage_with_quota ∅ 10)))
    as [_ Hrefused].
  destruct Hrefused as (Htoast & _ & _ & Htoken & _).
  - vm_compute. reflexivity.
  - vm_compute. reflexivity.
  - split; [exact Htoast|exact Htoken].
Defined.

(** User 7 has a saved cart; user 8 logs in, then user 7 again. *)
Lemma identity_switch_and_back_witness :
  cartItems
    (browser
       (fst (login_handleSubmit demo_parse demo_stringify
               (Some ("t7", JObj {[ "id" := JNum 7 ]}))
               (fst (login_handleSubmit demo_parse demo_stringify
                       (Some ("t8", JObj {[ "id" := JNum 8 ]}))
                       (mountProvider demo_parse demo_stringify Production
                          (storage_of {[ "user" := text_user7;
                                         "cart_user_7" := text_cartA2 ]})))))))
  = JArr [Line (mkLine productA 2)].
Proof.
  destruct (identity_switch_and_back demo_parse demo_stringify "t7" "t8" text_cartA2
              (JObj {[ "id" := JNum 7 ]}) (JNum 7) (JObj {[ "id" := JNum 8 ]}) (JNum 8)
              (mountProvider demo_parse demo_stringify Production
                 (storage_of {[ "user" := text_user7; "cart_user_7" := text_cartA2 ]})))
    as [_ Hback].
  - reflexivity.
  - reflexivity.
  - vm_compute. discriminate.
  - reflexivity.
  - reflexivity.
  - reflexivity.
  - vm_compute. discriminate.
  - reflexivity.
  - reflexivity.
  - reflexivity.
  - vm_compute. discriminate.
  - reflexivity.
  - exact Hback.
Defined.

(** A guest's saved cart, mounted twice: a production build keeps it, a
    development build starts empty. *)
Lemma refresh_keeps_the_cart_witness :
  cartItems
    (mount sample_parse sample_stringify Production
       (localStorage
          (mount sample_parse sample_stringify Production
             (storage_of {[ "cart_guest" := text_cartA2 ]}))))
  = JArr [Line (mkLine productA 2)]
  ∧ cartItems
      (mount sample_parse sample_stringify Development
         (storage_of {[ "cart_guest" := text_cartA2 ]}))
    = JArr [].
Proof.
  destruct (refresh_keeps_the_cart sample_parse sample_stringify
              (storage_of {[ "cart_guest" := text_cartA2 ]}))
    as [Hproduction Hdevelopment].
  - reflexivity.
  - reflexivity.
  - destruct Hproduction as [Hsame _].
    + vm_compute. discriminate.
    + reflexivity.
    + destruct (Hdevelopment eq_refl eq_refl) as (Hlost & _ & _).
      split; [rewrite Hsame; reflexivity | exact Hlost].
Defined.
